(** * Elections API: the resource resolution and filtering engine

    A shallow embedding of [api/views.py] and [api/models.py]: the validators,
    the filter selection, the paging parameters, the point and range queries
    of [results_by_area], the year overview of [results_overall], and the
    envelope with its [next] link. *)

From Stdlib Require Import ZArith String Ascii DecimalString DecimalZ.
From stdpp Require Import base option list sorting gmap strings.

Local Open Scope Z_scope.

(** ** Outcomes of a view

    A view either returns the value handed to [jsonify], or raises an
    [ApiException] (turned into a JSON error body by [handle_api_exception]),
    or leaves the modelled fragment. *)

Record ApiException := mkApiException { status_code : Z; message : string }.

Inductive Fault :=
| KeyError   (** a dictionary was read at a key it does not hold *)
| ValueError (** [list.index] of a missing element *)
| NegativeLimitOffset
    (** LIMIT or OFFSET below zero: what happens is decided by the SQL
        backend (one rejects the statement, another reads a negative LIMIT
        as no limit), not by the views. *).

Inductive Outcome (A : Type) : Type :=
| Return (a : A)
| Raise (e : ApiException)
| Unhandled (f : Fault).

Arguments Return {A} a.
Arguments Raise {A} e.
Arguments Unhandled {A} f.

Definition bind {A B} (m : Outcome A) (k : A → Outcome B) : Outcome B :=
  match m with
  | Return a => k a
  | Raise e => Raise e
  | Unhandled f => Unhandled f
  end.

#[global] Instance Outcome_ret : MRet Outcome := @Return.
#[global] Instance Outcome_bind : MBind Outcome := λ A B k m, bind m k.

Definition raise {A} (code : Z) (msg : string) : Outcome A :=
  Raise (mkApiException code msg).

(** A dictionary read [d[k]]. *)
Definition getitem {V} (d : gmap string V) (k : string) : Outcome V :=
  match d !! k with
  | Some v => Return v
  | None => Unhandled KeyError
  end.

(** ** Python's [str.lower], [int], [str] and [str.join] on byte strings

    [lower] maps the ASCII capitals and leaves every other byte alone;
    [py_int] reads ASCII white space, sign and digits. *)

Definition lower_ascii (c : ascii) : ascii :=
  let n := nat_of_ascii c in
  if ((65 <=? n) && (n <=? 90))%nat then ascii_of_nat (n + 32) else c.

Fixpoint lower (s : string) : string :=
  match s with
  | EmptyString => EmptyString
  | String c r => String (lower_ascii c) (lower r)
  end.

Fixpoint lstrip (s : string) : string :=
  match s with
  | EmptyString => EmptyString
  | String c r => if Ascii.is_space c then lstrip r else s
  end.

Fixpoint rstrip (s : string) : string :=
  match s with
  | EmptyString => EmptyString
  | String c r =>
      match rstrip r with
      | EmptyString => if Ascii.is_space c then EmptyString else String c EmptyString
      | r' => String c r'
      end
  end.

Definition strip (s : string) : string := rstrip (lstrip s).

(** Every character of a string satisfies a test. *)
Fixpoint string_forall (P : ascii → bool) (s : string) : bool :=
  match s with
  | EmptyString => true
  | String c r => P c && string_forall P r
  end.

Definition is_digit (c : ascii) : bool := bool_decide (is_Some (Ascii.is_nat c)).

(** One or more decimal digits. *)
Definition digits (s : string) : option Z :=
  Z.of_uint <$> NilZero.uint_of_string s.

(** [int(s)] for a string: surrounding white space, an optional sign, decimal
    digits; [None] stands for [ValueError]. *)
Definition py_int (s : string) : option Z :=
  match strip s with
  | String "-"%char r => Z.opp <$> digits r
  | String "+"%char r => digits r
  | t => digits t
  end.

(** [str(n)] for an integer. *)
Definition py_str (n : Z) : string := NilZero.string_of_int (Z.to_int n).

(** [sep.join(l)]. *)
Fixpoint join (sep : string) (l : list string) : string :=
  match l with
  | [] => ""
  | [x] => x
  | x :: r => x +:+ sep +:+ join sep r
  end.

(** [l.index(x)]. *)
Fixpoint index (l : list string) (x : string) : option nat :=
  match l with
  | [] => None
  | y :: r => if decide (y = x) then Some 0%nat else S <$> index r x
  end.

(** Truth value of [request.args.get(key)] and of a view argument: [None]
    and the empty string are false. *)
Definition truthy (v : option string) : bool :=
  match v with
  | Some (String _ _) => true
  | _ => false
  end.

(** ** The request *)

Record Request := mkRequest {
  url_root : string;
  args : list (string * string)  (** the query string, in order *)
}.

(** [request.args.get(key)]: the first value given for [key]. *)
Fixpoint args_get (a : list (string * string)) (key : string) : option string :=
  match a with
  | [] => None
  | (k, v) :: r => if decide (k = key) then Some v else args_get r key
  end.

(** ** Validators *)

Definition event_types : list string := ["provincial"; "national"].
Definition years : list Z := [1999; 2004; 2009].
Definition areas : list string :=
  ["province"; "municipality"; "ward"; "voting_district"].

Definition validate_event_type (event_type : string) : Outcome string :=
  let event_type := lower event_type in
  let tmp := join ", " event_types in
  if decide (event_type ∈ event_types) then Return event_type
  else raise 422 ("Incorrect event_type specified. Please use one of: " +:+ tmp +:+ ".").

Definition validate_year (year : string) : Outcome Z :=
  let tmp := join ", " (py_str <$> years) in
  match py_int year with
  | None => raise 422 ("Incorrect year specified. Please use one of: " +:+ tmp +:+ ".")
  | Some year =>
      if decide (year ∈ years) then Return year
      else raise 422 ("Incorrect year specified. Please use one of: " +:+ tmp +:+ ".")
  end.

Definition validate_area (area : string) : Outcome string :=
  let area := lower area in
  let tmp := join ", " areas in
  if decide (area ∈ areas) then Return area
  else raise 422 ("Incorrect area specified. Please use one of: " +:+ tmp +:+ ".").

(** ** The data model ([api/models.py])

    The four area tables share their columns: a primary key, the natural
    identifier ([province_id], [municipality_id], [ward_id],
    [voting_district_id]), the year, the two result blobs, the completeness
    flag, and the foreign keys of the coarser areas the row belongs to (a
    table without such a column holds [None]). [province_id] and
    [municipality_id] are [String] columns, [ward_id] and
    [voting_district_id] are [Integer] columns. *)

Inductive Ident :=
| IdStr (s : string)
| IdInt (n : Z).

Record Row := mkRow {
  pk : Z;
  natural_id : Ident;
  year : Z;
  results_provincial : string;
  results_national : string;
  vote_complete : bool;
  ward_pk : option Z;
  municipality_pk : option Z;
  province_pk : option Z
}.

Record Country := mkCountry {
  country_pk : Z;
  country_year : Z;
  country_results_provincial : string;
  country_results_national : string;
  country_vote_complete : bool
}.

(** The tables, each in storage order. *)
Record Store := mkStore {
  country : list Country;
  provinces : list Row;
  municipalities : list Row;
  wards : list Row;
  voting_districts : list Row
}.

Inductive Entity :=
| CountryItem (c : Country)
| AreaItem (r : Row).

(** ** The query layer

    A [Query] is the list of rows selected so far; [filter] keeps rows,
    [first] is [.first()], [count] is [.count()], [order_by] sorts on the
    natural identifier, [limit_offset] is [.limit(n).offset(m)]. *)

(** [column == value] for a value that arrives as a string: equality on a
    [String] column, and on an [Integer] column equality with the number
    the string is the decimal literal of. *)
Definition numeric_literal (v : string) : option Z :=
  Z.of_int <$> NilZero.int_of_string v.

Definition col_eq (c : Ident) (v : string) : Prop :=
  match c with
  | IdStr s => s = v
  | IdInt n => numeric_literal v = Some n
  end.

#[global] Instance col_eq_dec c v : Decision (col_eq c v).
Proof. destruct c; simpl; apply _. Defined.

(** Ascending order of a column: numbers by value, strings byte-wise,
    numbers before strings. *)
Definition ident_le (a b : Ident) : Prop :=
  match a, b with
  | IdInt x, IdInt y => x ≤ y
  | IdInt _, IdStr _ => True
  | IdStr _, IdInt _ => False
  | IdStr x, IdStr y => String.le x y
  end.

#[global] Instance ident_le_dec : RelDecision ident_le.
Proof. intros [x|x] [y|y]; simpl; apply _. Defined.

Definition row_le (r1 r2 : Row) : Prop :=
  ident_le (natural_id r1) (natural_id r2).

#[global] Instance row_le_dec : RelDecision row_le.
Proof. intros r1 r2. unfold row_le. apply _. Defined.

Definition first {A} (q : list A) : option A := head q.

Definition count (q : list Row) : Z := Z.of_nat (length q).

Definition order_by (q : list Row) : list Row := merge_sort row_le q.

Definition limit_offset (limit offset : Z) (q : list Row) : Outcome (list Row) :=
  if decide (limit < 0 ∨ offset < 0) then Unhandled NegativeLimitOffset
  else Return (take (Z.to_nat limit) (drop (Z.to_nat offset) q)).

(** ** Serialization *)

(** Modelled from the spec: the mapping [serialize_area] returns
    ([api/serializers.py] is not among the sources). Its [results] key
    holds the figures of the event type; the rest of the mapping is opaque
    and is kept as the entity it was built from. *)
Record AreaRecord := mkAreaRecord {
  item_of : Entity;
  results : string
}.

(** Modelled from the spec: the figures of an entity for an event type,
    the column [results_provincial] or [results_national]. *)
Definition entity_results (e : Entity) (event_type : string) : string :=
  match e with
  | CountryItem c =>
      if decide (event_type = "provincial") then country_results_provincial c
      else country_results_national c
  | AreaItem r =>
      if decide (event_type = "provincial") then results_provincial r
      else results_national r
  end.

(** Modelled from the spec: [serialize_area] of [api/serializers.py], which
    is not among the sources. A stored entity is always serialized; an
    absent one ([None]) is not-found, as the spec asks of the single-entity
    route. *)
Definition serialize_area (item : option Entity) (event_type : string)
  : Outcome AreaRecord :=
  match item with
  | None => raise 404 "Not Found"
  | Some e => Return (mkAreaRecord e (entity_results e event_type))
  end.

(** The serialized record of a stored area row. *)
Definition record_of (event_type : string) (r : Row) : AreaRecord :=
  mkAreaRecord (AreaItem r) (entity_results (AreaItem r) event_type).

(** ** Year overview ([results_overall]) *)

Definition results_overall (db : Store) (request : Request)
    (event_type year : string) : Outcome (gmap string string) :=
  event_type ← validate_event_type event_type;
  year ← validate_year year;
  let item := first (filter (λ c, country_year c = year) (country db)) in
  rec ← serialize_area (CountryItem <$> item) event_type;
  let out : gmap string string := <["results" := results rec]> ∅ in
  Return
    (foldl
       (λ (out : gmap string string) area,
          if decide (area ≠ "ward" ∨ 2009 ≤ year)
          then <[area := url_root request +:+ event_type +:+ "/" +:+ py_str year
                          +:+ "/" +:+ area +:+ "/"]> out
          else out)
       out areas).

(** ** Area results ([results_by_area]) *)

Record Envelope := mkEnvelope {
  env_count : Z;
  env_next : option string;
  env_results : list AreaRecord
}.

(** What the view hands to [jsonify]: the bare record of one entity, or the
    envelope of a collection. *)
Inductive AreaResponse :=
| Single (out : AreaRecord)
| Collection (out : Envelope).

(** [models]: the table of each area (its identifier column is
    [natural_id]). *)
Definition models (db : Store) : gmap string (list Row) :=
  list_to_map
    [("province", provinces db); ("municipality", municipalities db);
     ("ward", wards db); ("voting_district", voting_districts db)].

(** [model_filters]: for an area, the relationship column of each area that
    may filter it. *)
Definition model_filters : gmap string (gmap string (Row → option Z)) :=
  list_to_map
    [("municipality", list_to_map [("province", province_pk)]);
     ("ward",
      list_to_map [("province", province_pk); ("municipality", municipality_pk)]);
     ("voting_district",
      list_to_map
        [("province", province_pk); ("municipality", municipality_pk);
         ("ward", ward_pk)])].

(** [Model.year == year], [Model.<id column> == value] and
    [Model.<relationship> == obj] as row predicates. *)
Definition in_year (y : Z) (r : Row) : Prop := year r = y.
Definition has_id (v : string) (r : Row) : Prop := col_eq (natural_id r) v.
Definition belongs_to (rel : Row → option Z) (obj : Row) (r : Row) : Prop :=
  rel r = Some (pk obj).

#[global] Instance in_year_dec y r : Decision (in_year y r).
Proof. unfold in_year. apply _. Defined.
#[global] Instance has_id_dec v r : Decision (has_id v r).
Proof. unfold has_id. apply _. Defined.
#[global] Instance belongs_to_dec rel obj r : Decision (belongs_to rel obj r).
Proof. unfold belongs_to. apply _. Defined.

(** The loop over [reversed(areas)] that picks the filter parameter; it
    stops ([break] or [raise]) at the first area given in the query
    string. *)
Fixpoint scan_filter (request : Request) (area : string) (tmp_areas : list string)
  : Outcome (option string * option string) :=
  match tmp_areas with
  | [] => Return (None, None)
  | tmp_area :: rest =>
      if truthy (args_get (args request) tmp_area) then
        let filter_area := tmp_area in
        let filter_id := args_get (args request) tmp_area in
        match index areas filter_area, index areas area with
        | Some i, Some j =>
            if decide (j ≤ i)%nat
            then raise 422 "The specified filter parameter cannot be used in this query."
            else Return (Some filter_area, filter_id)
        | _, _ => Unhandled ValueError
        end
      else scan_filter request area rest
  end.

(** An optional integer parameter of the query string ([page],
    [per_page]). *)
Definition int_arg (request : Request) (key : string) (default : Z) : Outcome Z :=
  match args_get (args request) key with
  | Some (String c r) =>
      match py_int (String c r) with
      | Some n => Return n
      | None => raise 422 ("Please specify a valid '" +:+ key +:+ "'.")
      end
  | _ => Return default
  end.

(** The count and the rows of a collection: the filtered branch, then the
    unfiltered one. *)
Definition fetch_items (db : Store) (year : Z) (area : string)
    (filter_area filter_id : option string) (page per_page : Z)
    (all_results : bool) : Outcome (Z * list Row) :=
  match filter_area, filter_id with
  | Some (String _ _ as filter_area), Some (String _ _ as filter_id) =>
      filter_model ← getitem (models db) filter_area;
      match first (filter (has_id filter_id) filter_model) with
      | None =>
          raise 404
            "Could not find the specified filter. Check that you have provided a valid ID, or remove the filter."
      | Some obj =>
          model ← getitem (models db) area;
          area_filters ← getitem model_filters area;
          rel ← getitem area_filters filter_area;
          let q := filter (belongs_to rel obj) (filter (in_year year) model) in
          let count := count q in
          items ← (if all_results then Return (order_by q)
                   else limit_offset per_page (page * per_page) (order_by q));
          Return (count, items)
      end
  | _, _ =>
      model ← getitem (models db) area;
      let q := filter (in_year year) model in
      let count := count q in
      items ← (if all_results then Return (order_by q)
               else limit_offset per_page (page * per_page) (order_by q));
      Return (count, items)
  end.

(** The loop that serializes the fetched rows. *)
Fixpoint serialize_items (items : list Row) (event_type : string)
  : Outcome (list AreaRecord) :=
  match items with
  | [] => Return []
  | item :: rest =>
      r ← serialize_area (Some (AreaItem item)) event_type;
      results ← serialize_items rest event_type;
      Return (r :: results)
  end.

(** The target of the [next] link. *)
Definition next_url (request : Request) (event_type : string) (year : Z)
    (area : string) (page : Z) : string :=
  url_root request +:+ event_type +:+ "/" +:+ py_str year +:+ "/" +:+ area
    +:+ "/?page=" +:+ py_str (page + 1).

Definition results_by_area (db : Store) (request : Request)
    (event_type year area : string) (area_id : option string)
  : Outcome AreaResponse :=
  event_type ← validate_event_type event_type;
  year ← validate_year year;
  area ← validate_area area;
  '(filter_area, filter_id) ← scan_filter request area (reverse areas);
  page ← int_arg request "page" 0;
  per_page ← int_arg request "per_page" 50;
  let all_results := truthy (args_get (args request) "all_results") in
  match area_id with
  | Some (String _ _ as area_id) =>
      model ← getitem (models db) area;
      out ← serialize_area (AreaItem <$> first (filter (has_id area_id) model))
                           event_type;
      Return (Single out)
  | _ =>
      '(count, items) ← fetch_items db year area filter_area filter_id
                                     page per_page all_results;
      let next :=
        if decide ((page + 1) * per_page < count)
        then Some (next_url request event_type year area page)
        else None in
      results ← serialize_items items event_type;
      if decide (length results = 0%nat) then raise 404 "Not Found"
      else Return (Collection (mkEnvelope count next results))
  end.

(** ** The rows the view selects

    What the queries of the collection branch range over, read off
    [fetch_items]. Without a filter: the rows of the area's table in the
    year. With a filter: the filter entity is the first stored row that
    carries the identifier, whatever its year, and the rows are those of the
    year that reference it. *)
Inductive selects (db : Store) (y : Z) (a : string)
  : option string → option string → list Row → Prop :=
| selects_year fa fid model :
    truthy fa && truthy fid = false →
    models db !! a = Some model →
    selects db y a fa fid (filter (in_year y) model)
| selects_children fa fid filter_model obj model rel :
    truthy (Some fa) = true →
    truthy (Some fid) = true →
    models db !! fa = Some filter_model →
    first (filter (has_id fid) filter_model) = Some obj →
    models db !! a = Some model →
    (model_filters !! a ≫= (.!! fa)) = Some rel →
    selects db y a (Some fa) (Some fid)
      (filter (λ r, in_year y r ∧ belongs_to rel obj r) model).

(** ** The rows matching the year and the filter, as the specification
    words them

    These two definitions follow the specification, not the view. The
    filter entity is the row of the filter area's table whose year is the
    request's year and whose natural identifier is [filter_id]. The matching
    rows are the rows of the area's table in that year that reference the
    filter entity; without a filter they are all rows of the year. [None]
    stands for a filter entity (or a table) that does not exist. *)
Definition spec_filter_entity (db : Store) (y : Z)
    (filter_area filter_id : string) : option Row :=
  filter_model ← models db !! filter_area;
  first (filter (λ r, in_year y r ∧ has_id filter_id r) filter_model).

Definition spec_matching_rows (db : Store) (y : Z) (a : string)
    (filter_area filter_id : option string) : option (list Row) :=
  match filter_area, filter_id with
  | Some (String _ _ as filter_area), Some (String _ _ as filter_id) =>
      obj ← spec_filter_entity db y filter_area filter_id;
      model ← models db !! a;
      rel ← model_filters !! a ≫= (.!! filter_area);
      Some (filter (λ r, in_year y r ∧ belongs_to rel obj r) model)
  | _, _ =>
      model ← models db !! a;
      Some (filter (in_year y) model)
  end.

(** ** Following a [next] link

    A [Call] is one request to the collection route
    [/<event_type>/<year>/<area>/]; [url_of] is its address. *)

Record Call := mkCall {
  call_request : Request;
  call_event_type : string;
  call_year : string;
  call_area : string
}.

Fixpoint query_string (sep : string) (a : list (string * string)) : string :=
  match a with
  | [] => ""
  | [(k, v)] => sep +:+ k +:+ "=" +:+ v
  | (k, v) :: r => sep +:+ k +:+ "=" +:+ v +:+ query_string "&" r
  end.

Definition url_of (c : Call) : string :=
  url_root (call_request c) +:+ call_event_type c +:+ "/" +:+ call_year c
    +:+ "/" +:+ call_area c +:+ "/" +:+ query_string "?" (args (call_request c)).

Definition call (db : Store) (c : Call) : Outcome AreaResponse :=
  results_by_area db (call_request c) (call_event_type c) (call_year c)
    (call_area c) None.

(** The call of one page, with [page] as the only query parameter. *)
Definition page_call (root event_type : string) (year : Z) (area : string)
    (page : Z) : Call :=
  mkCall (mkRequest root [("page", py_str page)]) event_type (py_str year) area.

(** The call a response's [next] link addresses: the validated path
    segments and [page + 1], nothing else of the query string. *)
Definition next_call (c : Call) : Outcome Call :=
  event_type ← validate_event_type (call_event_type c);
  year ← validate_year (call_year c);
  area ← validate_area (call_area c);
  page ← int_arg (call_request c) "page" 0;
  Return (page_call (url_root (call_request c)) event_type year area (page + 1)).

(** One step of a client that pages through a collection: the call of the
    [next] link, if the response carries one. *)
Definition follow (db : Store) (c : Call) : option Call :=
  match call db c with
  | Return (Collection out) =>
      match env_next out, next_call c with
      | Some _, Return c' => Some c'
      | _, _ => None
      end
  | _ => None
  end.

(** The call reached after [n] links, [None] once the chain has ended. *)
Fixpoint follow_links (db : Store) (n : nat) (c : Call) : option Call :=
  match n with
  | O => Some c
  | S k => c' ← follow db c; follow_links db k c'
  end.

(** A response that is a 422 error. *)
Definition is_422 {A} (o : Outcome A) : Prop :=
  match o with
  | Raise e => status_code e = 422
  | _ => False
  end.

(** A response that is a 404 error. *)
Definition is_404 {A} (o : Outcome A) : Prop :=
  match o with
  | Raise e => status_code e = 404
  | _ => False
  end.

(** ** Sample data *)

Definition province_row (k : Z) (id : string) (y : Z) : Row :=
  mkRow k (IdStr id) y ("provincial figures of " +:+ id)
    ("national figures of " +:+ id) true None None None.

Definition municipality_row (k : Z) (id : string) (y : Z) (p : Z) : Row :=
  mkRow k (IdStr id) y ("provincial figures of " +:+ id)
    ("national figures of " +:+ id) true None None (Some p).

Definition host : string := "http://localhost/".

(** The country row of 2009 and nothing else. *)
Definition db_country : Store :=
  mkStore [mkCountry 1 2009 "provincial totals" "national totals" true] [] [] [] [].

(** Western Cape as stored for 1999 only. *)
Definition db_1999_only : Store :=
  mkStore [] [province_row 1 "WC" 1999] [] [] [].

(** Western Cape in 1999 and in 2009, and one municipality of the 2009
    row. *)
Definition db_two_years : Store :=
  mkStore []
    [province_row 1 "WC" 1999; province_row 2 "WC" 2009]
    [municipality_row 1 "CPT" 2009 2] [] [].

(** Two provinces of 2009. *)
Definition db_two_provinces : Store :=
  mkStore [] [province_row 1 "EC" 2009; province_row 2 "WC" 2009] [] [] [].

(** The provinces of 2009, one row per page. *)
Definition one_per_page : Call :=
  mkCall (mkRequest host [("per_page", "1")]) "national" "2009" "province".

(** The first page of a collection, nothing in the query string. *)
Definition first_page : Call :=
  mkCall (mkRequest host []) "national" "2009" "province".

(** [n] provinces of 2009, identified 0, 1, ... *)
Definition db_provinces (n : nat) : Store :=
  mkStore []
    ((λ i, province_row (Z.of_nat i) (py_str (Z.of_nat i)) 2009) <$> seq 0 n)
    [] [] [].

(** ** The unique index of a table

    Each model declares [Index(..., year, <id column>, unique=True)]: rows
    of one table that agree on the year and the natural identifier are the
    same row. *)
Definition unique_key (table : list Row) : Prop :=
  ∀ r1 r2, r1 ∈ table → r2 ∈ table →
    year r1 = year r2 → natural_id r1 = natural_id r2 → r1 = r2.

(** ** Index views ([index_event_types], [index_years]) *)

Definition index_event_types (request : Request) : gmap string string :=
  foldl
    (λ (out : gmap string string) event_type,
       <[event_type := url_root request +:+ event_type +:+ "/"]> out)
    ∅ event_types.

Definition index_years (request : Request) (event_type : string)
  : Outcome (gmap Z string) :=
  event_type ← validate_event_type event_type;
  Return
    (foldl
       (λ (out : gmap Z string) year,
          <[year := url_root request +:+ event_type +:+ "/" +:+ py_str year
                      +:+ "/"]> out)
       ∅ years).

(** The address of a route: the root, then each path segment followed by a
    slash. *)
Fixpoint path (segments : list string) : string :=
  match segments with
  | [] => ""
  | s :: r => s +:+ "/" +:+ path r
  end.

Definition route_url (request : Request) (segments : list string) : string :=
  url_root request +:+ path segments.

(** ** Responses and their headers

    A response has a status, a header list and a body. The header list is
    werkzeug's: names compare without regard to ASCII case, [h[key]] reads
    the first entry of the name, and [h[key] = value] replaces the first
    entry of the name, drops the later ones, and appends when there is
    none. *)

Record Response (A : Type) := mkResponse {
  resp_status : Z;
  resp_headers : list (string * string);
  resp_body : A
}.

Arguments mkResponse {A} _ _ _.
Arguments resp_status {A} _.
Arguments resp_headers {A} _.
Arguments resp_body {A} _.

Definition same_header (k1 k2 : string) : Prop := lower k1 = lower k2.

#[global] Instance same_header_dec k1 k2 : Decision (same_header k1 k2).
Proof. unfold same_header. apply _. Defined.

Fixpoint headers_get (h : list (string * string)) (key : string) : option string :=
  match h with
  | [] => None
  | (k, v) :: r => if decide (same_header k key) then Some v else headers_get r key
  end.

Definition headers_remove (h : list (string * string)) (key : string)
  : list (string * string) :=
  filter (λ kv, ¬ same_header kv.1 key) h.

Fixpoint headers_set (h : list (string * string)) (key value : string)
  : list (string * string) :=
  match h with
  | [] => [(key, value)]
  | (k, v) :: r =>
      if decide (same_header k key) then (key, value) :: headers_remove r key
      else (k, v) :: headers_set r key value
  end.

(** [jsonify(out)]: status 200 and the JSON content type. *)
Definition jsonify {A} (out : A) : Response A :=
  mkResponse 200 [("Content-Type", "application/json")] out.

(** ** [ApiException.to_dict] and [handle_api_exception] *)

Inductive Scalar :=
| SInt (n : Z)
| SStr (s : string).

Definition to_dict (error : ApiException) : gmap string Scalar :=
  <["message" := SStr (message error)]>
    (<["code" := SInt (status_code error)]> ∅).

Definition handle_api_exception (error : ApiException)
  : Response (gmap string Scalar) :=
  let response := jsonify (to_dict error) in
  mkResponse (status_code error) (resp_headers response) (resp_body response).

(** ** The [crossdomain] decorator *)

Definition upper_ascii (c : ascii) : ascii :=
  let n := nat_of_ascii c in
  if ((97 <=? n) && (n <=? 122))%nat then ascii_of_nat (n - 32) else c.

Fixpoint upper (s : string) : string :=
  match s with
  | EmptyString => EmptyString
  | String c r => String (upper_ascii c) (upper r)
  end.

(** [sorted(l)] on strings. *)
Definition sorted (l : list string) : list string := merge_sort String.le l.

(** An argument that is a string or a list of strings. *)
Inductive StrOrList :=
| Str (s : string)
| StrList (l : list string).

(** [max_age]: a number of seconds, or a [timedelta], of which only the
    text of [total_seconds()] is kept. *)
Inductive MaxAge :=
| Seconds (n : Z)
| Timedelta (total_seconds : string).

(** What the decorator keeps once its arguments are normalised. *)
Record Cors := mkCors {
  cors_origin : string;
  cors_methods : option string;
  cors_headers : option string;
  cors_max_age : string;
  attach_to_all : bool;
  automatic_options : bool
}.

(** The preamble of [crossdomain]; [None] is the [TypeError] of
    [', '.join(None)] when no origin is given. *)
Definition crossdomain (origin : option StrOrList) (methods : option (list string))
    (headers : option StrOrList) (max_age : MaxAge)
    (attach_to_all automatic_options : bool) : option Cors :=
  let methods := (λ l, join ", " (sorted (upper <$> l))) <$> methods in
  let headers :=
    (λ h, match h with
          | Str s => s
          | StrList l => join ", " (upper <$> l)
          end) <$> headers in
  origin ← match origin with
           | Some (Str s) => Some s
           | Some (StrList l) => Some (join ", " l)
           | None => None
           end;
  let max_age :=
    match max_age with
    | Seconds n => py_str n
    | Timedelta total_seconds => total_seconds
    end in
  Some (mkCors origin methods headers max_age attach_to_all automatic_options).

(** [get_methods]: the methods given, else the [Allow] header of the
    application's default OPTIONS response. *)
Definition get_methods {A} (c : Cors) (options_resp : Response A) : Outcome string :=
  match cors_methods c with
  | Some methods => Return methods
  | None =>
      match headers_get (resp_headers options_resp) "allow" with
      | Some allow => Return allow
      | None => Unhandled KeyError
      end
  end.

(** [wrapped_function]: [method] is [request.method], [options_resp] is
    [current_app.make_default_options_response()], and [f] is the outcome
    of the decorated view, which is not run on an automatic OPTIONS. *)
Definition wrapped_function {A} (c : Cors) (method : string)
    (options_resp : Response A) (f : Outcome (Response A))
  : Outcome (Response A) :=
  resp ← (if automatic_options c && bool_decide (method = "OPTIONS")
          then Return options_resp else f);
  if negb (attach_to_all c) && negb (bool_decide (method = "OPTIONS"))
  then Return resp
  else
    let h := headers_set (resp_headers resp) "Access-Control-Allow-Origin"
               (cors_origin c) in
    methods ← get_methods c options_resp;
    let h := headers_set h "Access-Control-Allow-Methods" methods in
    let h := headers_set h "Access-Control-Max-Age" (cors_max_age c) in
    let h :=
      match cors_headers c with
      | Some headers => headers_set h "Access-Control-Allow-Headers" headers
      | None => h
      end in
    Return (mkResponse (resp_status resp) h (resp_body resp)).

(** ** The views as served

    Each view is decorated with [crossdomain(origin='*')] and hands its
    output to [jsonify]; an [ApiException] that leaves the decorated view is
    answered by [handle_api_exception]. *)

Definition api_cors : Cors := mkCors "*" None None "21600" true true.

Definition served {A} (method : string)
    (options_resp : Response (A + gmap string Scalar)) (view : Outcome A)
  : Outcome (Response (A + gmap string Scalar)) :=
  match
    wrapped_function api_cors method options_resp
      (out ← view; Return (jsonify (inl out)))
  with
  | Raise error =>
      let response := handle_api_exception error in
      Return (mkResponse (resp_status response) (resp_headers response)
                (inr (resp_body response)))
  | rv => rv
  end.

(** ** More sample data *)

(** The two provinces of 2009, stored the other way round. *)
Definition db_two_provinces_swapped : Store :=
  mkStore [] [province_row 2 "WC" 2009; province_row 1 "EC" 2009] [] [] [].

(** [db_two_years] with the two Western Cape rows stored the other way
    round. *)
Definition db_two_years_swapped : Store :=
  mkStore []
    [province_row 2 "WC" 2009; province_row 1 "WC" 1999]
    [municipality_row 1 "CPT" 2009 2] [] [].

(** The country row and two provinces of 2009. *)
Definition db_2009 : Store :=
  mkStore [mkCountry 1 2009 "provincial totals" "national totals" true]
    [province_row 1 "EC" 2009; province_row 2 "WC" 2009] [] [] [].

(** One province of 2009 and two municipalities, one of them in it. *)
Definition db_filtered : Store :=
  mkStore [] [province_row 1 "EC" 2009]
    [municipality_row 1 "BUF" 2009 1; municipality_row 2 "CPT" 2009 9] [] [].

(** A default OPTIONS response: no body to speak of, and the [Allow]
    header. *)
Definition options_response {A} : Response (A + gmap string Scalar) :=
  mkResponse 200 [("Allow", "HEAD, OPTIONS, GET"); ("Content-Length", "0")]
    (inr ∅).

(** * Properties *)

(** ** Strings and numbers *)

Lemma lstrip_no_space c r :
  Ascii.is_space c = false → lstrip (String c r) = String c r.
Proof. intros H. simpl. by rewrite H. Qed.

Lemma rstrip_no_space s :
  string_forall (λ c, negb (Ascii.is_space c)) s = true → rstrip s = s.
Proof.
  induction s as [|c r IH]; [done|]. simpl.
  intros [Hc Hr]%andb_true_iff. rewrite (IH Hr).
  destruct r; [|done]. by apply negb_true_iff in Hc as ->.
Qed.

Lemma digit_no_space c : is_digit c = true → Ascii.is_space c = false.
Proof.
  destruct c as [[|] [|] [|] [|] [|] [|] [|] [|]]; vm_compute; congruence.
Qed.

Lemma string_forall_impl (P Q : ascii → bool) s :
  (∀ c, P c = true → Q c = true) →
  string_forall P s = true → string_forall Q s = true.
Proof.
  intros HPQ. induction s as [|c r IH]; [done|]. simpl.
  intros [Hc Hr]%andb_true_iff. apply andb_true_iff. auto.
Qed.

Lemma uint_digits d : string_forall is_digit (NilEmpty.string_of_uint d) = true.
Proof. induction d; simpl; auto. Qed.

Lemma strip_digits s : string_forall is_digit s = true → strip s = s.
Proof.
  intros Hs. unfold strip.
  assert (lstrip s = s) as ->.
  { destruct s as [|c r]; [done|]. simpl in Hs.
    apply andb_true_iff in Hs as [Hc _]. by apply lstrip_no_space, digit_no_space. }
  apply rstrip_no_space. revert Hs. apply string_forall_impl.
  intros c Hc. by rewrite (digit_no_space c Hc).
Qed.

Lemma py_int_uint d :
  d ≠ Decimal.Nil → py_int (NilEmpty.string_of_uint d) = Some (Z.of_uint d).
Proof.
  intros Hd. unfold py_int. rewrite strip_digits by apply uint_digits.
  assert (digits (NilEmpty.string_of_uint d) = Some (Z.of_uint d)) as Hdig.
  { unfold digits. replace (NilEmpty.string_of_uint d) with (NilZero.string_of_uint d)
      by by destruct d.
    by rewrite NilZero.usu. }
  destruct d; try done; simpl in *; exact Hdig.
Qed.

Lemma py_int_neg_uint d :
  d ≠ Decimal.Nil →
  py_int (String "-" (NilEmpty.string_of_uint d)) = Some (- Z.of_uint d).
Proof.
  intros Hd. unfold py_int.
  assert (strip (String "-" (NilEmpty.string_of_uint d))
          = String "-" (NilEmpty.string_of_uint d)) as ->.
  { unfold strip. rewrite lstrip_no_space by done.
    apply rstrip_no_space. simpl.
    generalize (uint_digits d). apply string_forall_impl.
    intros c Hc. by rewrite (digit_no_space c Hc). }
  unfold digits.
  replace (NilEmpty.string_of_uint d) with (NilZero.string_of_uint d)
    by by destruct d.
  by rewrite NilZero.usu.
Qed.

(** [int(str(n)) == n]. *)
Lemma py_int_str n : py_int (py_str n) = Some n.
Proof.
  rewrite <- (DecimalZ.of_to n) at 2. unfold py_str.
  destruct n as [|p|p]; [done| |]; simpl Z.to_int.
  - pose proof (DecimalPos.Unsigned.to_uint_nonnil p) as Hp.
    replace (NilZero.string_of_int (Decimal.Pos (Pos.to_uint p)))
      with (NilEmpty.string_of_uint (Pos.to_uint p))
      by (simpl; by destruct (Pos.to_uint p)).
    by rewrite py_int_uint.
  - pose proof (DecimalPos.Unsigned.to_uint_nonnil p) as Hp.
    replace (NilZero.string_of_int (Decimal.Neg (Pos.to_uint p)))
      with (String "-" (NilEmpty.string_of_uint (Pos.to_uint p)))
      by (simpl; by destruct (Pos.to_uint p)).
    by rewrite py_int_neg_uint.
Qed.

(** [str(n)] is never the empty string. *)
Lemma py_str_nonempty n : ∃ c r, py_str n = String c r.
Proof.
  unfold py_str. destruct n as [|p|p]; simpl Z.to_int.
  - by eexists _, _.
  - pose proof (DecimalPos.Unsigned.to_uint_nonnil p) as Hp.
    simpl. destruct (Pos.to_uint p); try done; by eexists _, _.
  - by eexists _, _.
Qed.


(** ** The outcome monad *)

Ltac outcome_simpl :=
  cbn [mbind mret Outcome_bind Outcome_ret bind fmap option_fmap option_map] in *.

Lemma bind_Return {A B} (m : Outcome A) (k : A → Outcome B) b :
  m ≫= k = Return b → ∃ a, m = Return a ∧ k a = Return b.
Proof. destruct m; outcome_simpl; [eauto|done..]. Qed.

Lemma bind_not_422 {A B} (m : Outcome A) (k : A → Outcome B) :
  ¬ is_422 m → (∀ a, ¬ is_422 (k a)) → ¬ is_422 (m ≫= k).
Proof. destruct m; outcome_simpl; auto. Qed.

Ltac bind_inv H :=
  let a := fresh "a" in
  let Ha := fresh "H" a in
  apply bind_Return in H as (a & Ha & H).

(** ** Validators *)

Lemma validate_event_type_Return s et :
  validate_event_type s = Return et → et ∈ event_types ∧ et = lower s.
Proof. unfold validate_event_type. case_decide; [|done]. by intros [= <-]. Qed.

Lemma validate_year_Return s y :
  validate_year s = Return y → y ∈ years ∧ py_int s = Some y.
Proof.
  unfold validate_year. destruct (py_int s) as [n|]; [|done].
  case_decide; [|done]. by intros [= <-].
Qed.

Lemma validate_area_Return s a :
  validate_area s = Return a → a ∈ areas ∧ a = lower s.
Proof. unfold validate_area. case_decide; [|done]. by intros [= <-]. Qed.

Lemma areas_cases a :
  a ∈ areas →
  a = "province" ∨ a = "municipality" ∨ a = "ward" ∨ a = "voting_district".
Proof. unfold areas. rewrite !elem_of_cons, elem_of_nil. tauto. Qed.

Lemma event_types_cases et :
  et ∈ event_types → et = "provincial" ∨ et = "national".
Proof. unfold event_types. rewrite !elem_of_cons, elem_of_nil. tauto. Qed.

Lemma years_cases y : y ∈ years → y = 1999 ∨ y = 2004 ∨ y = 2009.
Proof. unfold years. rewrite !elem_of_cons, elem_of_nil. tauto. Qed.

(** Validated path segments validate again, to themselves. *)
Lemma validate_event_type_valid et :
  et ∈ event_types → validate_event_type et = Return et.
Proof. intros [-> | ->]%event_types_cases; reflexivity. Qed.

Lemma validate_year_valid y : y ∈ years → validate_year (py_str y) = Return y.
Proof. intros [-> | [-> | ->]]%years_cases; reflexivity. Qed.

Lemma validate_area_valid a : a ∈ areas → validate_area a = Return a.
Proof. intros [-> | [-> | [-> | ->]]]%areas_cases; reflexivity. Qed.

Lemma models_lookup db a : a ∈ areas → ∃ model, models db !! a = Some model.
Proof. intros [-> | [-> | [-> | ->]]]%areas_cases; by eexists. Qed.

Lemma index_areas_Some f i :
  index areas f = Some i →
  f = "province" ∧ i = 0%nat ∨ f = "municipality" ∧ i = 1%nat
  ∨ f = "ward" ∧ i = 2%nat ∨ f = "voting_district" ∧ i = 3%nat.
Proof.
  unfold areas. simpl. repeat case_decide; simplify_eq/=; naive_solver.
Qed.

Lemma index_areas_elem a : a ∈ areas → ∃ j, index areas a = Some j.
Proof. intros [-> | [-> | [-> | ->]]]%areas_cases; by eexists. Qed.

(** ** The query layer *)

Lemma first_filter_Some {A} (P : A → Prop) `{∀ x, Decision (P x)} (l : list A) x :
  x ∈ l → P x → ∃ z, first (filter P l) = Some z.
Proof.
  intros Hx HP. assert (x ∈ filter P l) as Hin by by apply list_elem_of_filter.
  unfold first. destruct (filter P l); [by apply elem_of_nil in Hin|by eexists].
Qed.

Lemma first_filter_elem {A} (P : A → Prop) `{∀ x, Decision (P x)} (l : list A) z :
  first (filter P l) = Some z → z ∈ l ∧ P z.
Proof.
  unfold first. intros Hz. assert (z ∈ filter P l) as Hin.
  { destruct (filter P l); simplify_eq/=. apply list_elem_of_here. }
  apply list_elem_of_filter in Hin. tauto.
Qed.

(** ** Year overview *)

(** C7. For a valid event type and year, the year overview holds a link for
    province, municipality and voting_district, and the ward link exactly
    when the year is 2009 or later; the overview is returned whenever the
    country row of the year is stored. *)
Theorem overview_links db request event_type year et y :
  validate_event_type event_type = Return et →
  validate_year year = Return y →
  let link area :=
    url_root request +:+ et +:+ "/" +:+ py_str y +:+ "/" +:+ area +:+ "/" in
  (∀ out, results_overall db request event_type year = Return out →
     out !! "province" = Some (link "province") ∧
     out !! "municipality" = Some (link "municipality") ∧
     out !! "voting_district" = Some (link "voting_district") ∧
     (2009 ≤ y → out !! "ward" = Some (link "ward")) ∧
     (is_Some (out !! "ward") ↔ 2009 ≤ y))
  ∧ ((∃ c, c ∈ country db ∧ country_year c = y) →
     ∃ out, results_overall db request event_type year = Return out).
Proof.
  intros Het Hy link. unfold results_overall. rewrite Het, Hy. outcome_simpl.
  split.
  - intros out Hout. bind_inv Hout. injection Hout as <-.
    unfold areas. cbn [foldl].
    repeat case_decide; try (exfalso; tauto);
      repeat first [rewrite lookup_insert_eq
                   | rewrite lookup_insert_ne by discriminate
                   | rewrite lookup_empty].
    + assert (2009 ≤ y) by tauto.
      repeat split; done.
    + assert (¬ 2009 ≤ y) by tauto.
      repeat split; done.
  - intros (c & Hc & Hcy).
    destruct (first_filter_Some (λ c, country_year c = y) (country db) c Hc Hcy)
      as [z ->].
    outcome_simpl. by eexists.
Qed.

(** ** Filter selection *)

(** The scan for the filter parameter, unfolded over [reversed(areas)]. *)
Lemma reverse_areas :
  reverse areas = ["voting_district"; "ward"; "municipality"; "province"].
Proof. reflexivity. Qed.

Lemma scan_filter_none request a :
  (∀ G, G ∈ areas → truthy (args_get (args request) G) = false) →
  scan_filter request a (reverse areas) = Return (None, None).
Proof.
  intros Hnone. rewrite reverse_areas. cbn [scan_filter].
  rewrite !Hnone; [done|unfold areas; rewrite !elem_of_cons; tauto..].
Qed.

Ltac index_literal :=
  match goal with
  | |- context [index areas ?s] =>
      let v := eval vm_compute in (index areas s) in
      change (index areas s) with v
  end.

(** The first parameter given, scanning from the finest area, decides. *)
Lemma scan_filter_first request A j F i :
  index areas A = Some j →
  index areas F = Some i →
  truthy (args_get (args request) F) = true →
  (∀ G k, index areas G = Some k → (i < k)%nat →
          truthy (args_get (args request) G) = false) →
  scan_filter request A (reverse areas) =
    if decide (i < j)%nat
    then Return (Some F, args_get (args request) F)
    else raise 422 "The specified filter parameter cannot be used in this query.".
Proof.
  intros HA HF Hgiven Hfiner. rewrite reverse_areas.
  apply index_areas_Some in HF as [[-> ->]|[[-> ->]|[[-> ->]|[-> ->]]]];
    cbn [scan_filter].
  - rewrite (Hfiner "voting_district" 3%nat), (Hfiner "ward" 2%nat),
      (Hfiner "municipality" 1%nat), Hgiven by (done || lia).
    rewrite HA. index_literal. repeat case_decide; try done; lia.
  - rewrite (Hfiner "voting_district" 3%nat), (Hfiner "ward" 2%nat), Hgiven
      by (done || lia).
    rewrite HA. index_literal. repeat case_decide; try done; lia.
  - rewrite (Hfiner "voting_district" 3%nat), Hgiven by (done || lia).
    rewrite HA. index_literal. repeat case_decide; try done; lia.
  - rewrite Hgiven.
    rewrite HA. index_literal. repeat case_decide; try done; lia.
Qed.

(** C4. The query parameters are scanned from the finest area to the
    coarsest (a parameter counts as given when its value is not empty); the
    first one given is the only filter looked at; it is accepted when its
    position in [areas] is strictly before the position of the requested
    area, and the request fails with 422 otherwise. With no area parameter
    given there is no filter. *)
Theorem filter_selection request A j :
  index areas A = Some j →
  ((∀ G, G ∈ areas → truthy (args_get (args request) G) = false) →
   scan_filter request A (reverse areas) = Return (None, None))
  ∧ (∀ F i,
       index areas F = Some i →
       truthy (args_get (args request) F) = true →
       (∀ G k, index areas G = Some k → (i < k)%nat →
               truthy (args_get (args request) G) = false) →
       (scan_filter request A (reverse areas) =
          if decide (i < j)%nat
          then Return (Some F, args_get (args request) F)
          else raise 422 "The specified filter parameter cannot be used in this query.")
       ∧ (¬ (i < j)%nat →
          ∀ db event_type year area area_id et y,
            validate_event_type event_type = Return et →
            validate_year year = Return y →
            validate_area area = Return A →
            results_by_area db request event_type year area area_id =
              raise 422 "The specified filter parameter cannot be used in this query.")).
Proof.
  intros HA. split; [apply scan_filter_none|].
  intros F i HF Hgiven Hfiner.
  pose proof (scan_filter_first request A j F i HA HF Hgiven Hfiner) as Hscan.
  split; [done|].
  intros Hij db event_type year area area_id et y Het Hy Harea.
  unfold results_by_area. rewrite Het, Hy, Harea. outcome_simpl.
  rewrite Hscan. by case_decide.
Qed.

(** ** Ordering *)

#[global] Instance ident_le_total : Total ident_le.
Proof.
  intros [x|x] [y|y]; simpl; auto.
  - apply (total String.le).
  - lia.
Qed.

#[global] Instance ident_le_trans : Transitive ident_le.
Proof.
  intros [x|x] [y|y] [z|z]; simpl; try done.
  - apply (transitivity (R := String.le)).
  - lia.
Qed.

#[global] Instance row_le_total : Total row_le.
Proof. intros r1 r2. apply (total ident_le). Qed.

#[global] Instance row_le_trans : Transitive row_le.
Proof. intros r1 r2 r3. apply (transitivity (R := ident_le)). Qed.

Lemma order_by_sorted q : StronglySorted row_le (order_by q).
Proof. apply StronglySorted_merge_sort; apply _. Qed.

Lemma order_by_perm q : order_by q ≡ₚ q.
Proof. apply merge_sort_Permutation. Qed.

Lemma order_by_length q : length (order_by q) = length q.
Proof. by rewrite order_by_perm. Qed.

(** ** Fetching a collection *)

Lemma serialize_items_eq items et :
  serialize_items items et = Return (record_of et <$> items).
Proof.
  induction items as [|item rest IH]; [done|].
  cbn [serialize_items serialize_area]. outcome_simpl. by rewrite IH.
Qed.

Lemma getitem_Return {V} (d : gmap string V) k v :
  getitem d k = Return v → d !! k = Some v.
Proof. unfold getitem. destruct (d !! k); [|done]. by intros [= ->]. Qed.

Lemma getitem_Some {V} (d : gmap string V) k v :
  d !! k = Some v → getitem d k = Return v.
Proof. unfold getitem. by intros ->. Qed.

Lemma truthy_Some v : truthy (Some v) = true ↔ v ≠ "".
Proof. destruct v; simpl; split; done. Qed.

(** What the page of a collection is made of: the rows asked for, in
    ascending order, all of them or the slice at [page * per_page]. *)
Lemma fetch_items_Return db y a fa fid p pp flag cnt items :
  fetch_items db y a fa fid p pp flag = Return (cnt, items) →
  ∃ matching,
    selects db y a fa fid matching ∧
    cnt = Z.of_nat (length matching) ∧
    (flag = true → items = order_by matching) ∧
    (flag = false →
       0 ≤ pp ∧ 0 ≤ p * pp ∧
       items = take (Z.to_nat pp) (drop (Z.to_nat (p * pp)) (order_by matching))).
Proof.
  assert (∀ q : list Row,
    (if flag then Return (order_by q)
     else limit_offset pp (p * pp) (order_by q)) ≫=
      (λ items, Return (count q, items)) = Return (cnt, items) →
    cnt = Z.of_nat (length q) ∧
    (flag = true → items = order_by q) ∧
    (flag = false →
       0 ≤ pp ∧ 0 ≤ p * pp ∧
       items = take (Z.to_nat pp) (drop (Z.to_nat (p * pp)) (order_by q))))
    as Hpage.
  { intros q Hq. bind_inv Hq. injection Hq as <- <-. split; [done|].
    destruct flag.
    - injection Ha0 as <-. by split.
    - unfold limit_offset in Ha0. case_decide; [done|].
      injection Ha0 as <-. split; [done|]. intros _. repeat split; lia || done. }
  unfold fetch_items.
  assert (∀ model : list Row,
    models db !! a = Some model →
    (if flag then Return (order_by (filter (in_year y) model))
     else limit_offset pp (p * pp) (order_by (filter (in_year y) model))) ≫=
      (λ items, Return (count (filter (in_year y) model), items))
      = Return (cnt, items) →
    truthy fa && truthy fid = false →
    ∃ matching,
      selects db y a fa fid matching ∧
      cnt = Z.of_nat (length matching) ∧
      (flag = true → items = order_by matching) ∧
      (flag = false →
         0 ≤ pp ∧ 0 ≤ p * pp ∧
         items = take (Z.to_nat pp) (drop (Z.to_nat (p * pp)) (order_by matching))))
    as Hplain.
  { intros model Hmodel Hq Hfalsy. exists (filter (in_year y) model).
    split; [by constructor|]. by apply Hpage. }
  destruct fa as [[|c1 fa]|], fid as [[|c2 fid]|];
    try (intros H; bind_inv H; apply getitem_Return in Ha0;
         by apply (Hplain a0)).
  intros H. bind_inv H. apply getitem_Return in Ha0.
  destruct (first (filter (has_id (String c2 fid)) a0)) as [obj|] eqn:Hobj; [|done].
  bind_inv H. apply getitem_Return in Ha1.
  bind_inv H. apply getitem_Return in Ha2.
  bind_inv H. apply getitem_Return in Ha3.
  exists (filter (λ r, in_year y r ∧ belongs_to a3 obj r) a1).
  split.
  - eapply selects_children; try done. rewrite Ha2. simpl. done.
  - assert (filter (λ r, in_year y r ∧ belongs_to a3 obj r) a1
            = filter (belongs_to a3 obj) (filter (in_year y) a1)) as ->.
    { rewrite list_filter_filter. apply list_filter_iff. intros r. tauto. }
    by apply Hpage.
Qed.

(** Conversely, the rows asked for are the rows fetched. *)
Lemma fetch_items_selects db y a fa fid p pp flag matching :
  selects db y a fa fid matching →
  fetch_items db y a fa fid p pp flag
    = (if flag then Return (order_by matching)
       else limit_offset pp (p * pp) (order_by matching))
      ≫= λ items, Return (Z.of_nat (length matching), items).
Proof.
  intros Hsel. unfold fetch_items.
  destruct Hsel as [fa fid model Hfalsy Hmodel
                   |fa fid filter_model obj model rel Hfa Hfid Hfm Hobj Hmodel Hrel].
  - rewrite (getitem_Some _ _ _ Hmodel). outcome_simpl.
    by destruct fa as [[|c1 fa]|], fid as [[|c2 fid]|].
  - destruct fa as [|c1 fa]; [done|]. destruct fid as [|c2 fid]; [done|].
    rewrite (getitem_Some _ _ _ Hfm). outcome_simpl. rewrite Hobj.
    rewrite (getitem_Some _ _ _ Hmodel). outcome_simpl.
    destruct (model_filters !! a) as [area_filters|] eqn:Haf; [|done].
    simpl in Hrel. rewrite (getitem_Some _ _ _ Haf). outcome_simpl.
    rewrite (getitem_Some _ _ _ Hrel). outcome_simpl.
    assert (filter (λ r, in_year y r ∧ belongs_to rel obj r) model
            = filter (belongs_to rel obj) (filter (in_year y) model)) as ->.
    { rewrite list_filter_filter. apply list_filter_iff. intros r. tauto. }
    done.
Qed.

(** ** The collection branch of [results_by_area] *)

(** The envelope built from a count and the fetched rows. *)
Lemma results_by_area_collection
    db request event_type year area area_id et y a fa fid p pp :
  validate_event_type event_type = Return et →
  validate_year year = Return y →
  validate_area area = Return a →
  scan_filter request a (reverse areas) = Return (fa, fid) →
  int_arg request "page" 0 = Return p →
  int_arg request "per_page" 50 = Return pp →
  truthy area_id = false →
  results_by_area db request event_type year area area_id =
    fetch_items db y a fa fid p pp (truthy (args_get (args request) "all_results"))
    ≫= λ '(cnt, items),
      if decide (items = []) then raise 404 "Not Found"
      else Return (Collection (mkEnvelope cnt
             (if decide ((p + 1) * pp < cnt)
              then Some (next_url request et y a p) else None)
             (record_of et <$> items))).
Proof.
  intros Het Hy Ha Hscan Hp Hpp Hid. unfold results_by_area.
  rewrite Het, Hy, Ha. outcome_simpl. rewrite Hscan. outcome_simpl.
  rewrite Hp, Hpp. outcome_simpl.
  assert (∀ o : Outcome (Z * list Row),
    o ≫= (λ '(count, items),
       serialize_items items et ≫= λ results,
         if decide (length results = 0%nat) then raise 404 "Not Found"
         else Return (Collection (mkEnvelope count
                (if decide ((p + 1) * pp < count)
                 then Some (next_url request et y a p) else None) results)))
    = o ≫= (λ '(cnt, items),
       if decide (items = []) then raise 404 "Not Found"
       else Return (Collection (mkEnvelope cnt
              (if decide ((p + 1) * pp < cnt)
               then Some (next_url request et y a p) else None)
              (record_of et <$> items))))) as Hsame.
  { intros [[cnt items]| |]; outcome_simpl; [|done..].
    rewrite serialize_items_eq. outcome_simpl.
    destruct items; [done|]. by repeat case_decide. }
  destruct area_id as [[|c r]|]; [apply Hsame|done|apply Hsame].
Qed.

(** Every collection response comes out of the collection branch. *)
Lemma collection_inv db request event_type year area area_id out :
  results_by_area db request event_type year area area_id = Return (Collection out) →
  ∃ et y a fa fid p pp items,
    validate_event_type event_type = Return et ∧
    validate_year year = Return y ∧
    validate_area area = Return a ∧
    scan_filter request a (reverse areas) = Return (fa, fid) ∧
    int_arg request "page" 0 = Return p ∧
    int_arg request "per_page" 50 = Return pp ∧
    truthy area_id = false ∧
    fetch_items db y a fa fid p pp (truthy (args_get (args request) "all_results"))
      = Return (env_count out, items) ∧
    items ≠ [] ∧
    env_next out = (if decide ((p + 1) * pp < env_count out)
                    then Some (next_url request et y a p) else None) ∧
    env_results out = record_of et <$> items.
Proof.
  intros H.
  assert (truthy area_id = false) as Hid.
  { unfold results_by_area in H.
    do 3 bind_inv H. bind_inv H. destruct a2 as [fa fid]. do 2 bind_inv H.
    destruct area_id as [[|c r]|]; try done.
    do 2 bind_inv H. done. }
  pose proof H as H'. unfold results_by_area in H'.
  bind_inv H'. rename a into et. bind_inv H'. rename a into y.
  bind_inv H'. bind_inv H'. destruct a0 as [fa fid].
  bind_inv H'. rename a0 into p. bind_inv H'. rename a0 into pp.
  clear H'.
  rewrite (results_by_area_collection db request event_type year area area_id
             et y a fa fid p pp) in H by done.
  bind_inv H. destruct a0 as [cnt items].
  case_decide; [done|]. injection H as <-.
  exists et, y, a, fa, fid, p, pp, items. by repeat split.
Qed.

(** ** The [next] link and the envelope *)

(** C5. A collection response carries a [next] link exactly when
    [count > (page + 1) * per_page]; with 120 rows and 50 rows per page that
    is the case on pages 0 and 1 and not on page 2. *)
Theorem next_link_iff db request event_type year area area_id out p pp :
  results_by_area db request event_type year area area_id = Return (Collection out) →
  int_arg request "page" 0 = Return p →
  int_arg request "per_page" 50 = Return pp →
  (is_Some (env_next out) ↔ env_count out > (p + 1) * pp)
  ∧ (env_count out = 120 → pp = 50 →
       (p = 0 ∨ p = 1 → is_Some (env_next out)) ∧ (p = 2 → env_next out = None)).
Proof.
  intros H Hp Hpp.
  apply collection_inv in H
    as (et & y & a & fa & fid & p' & pp' & items & _ & _ & _ & _ & Hp' & Hpp'
        & _ & _ & _ & Hnext & _).
  rewrite Hp in Hp'. rewrite Hpp in Hpp'. simplify_eq.
  assert (is_Some (env_next out) ↔ env_count out > (p' + 1) * pp') as Hiff.
  { rewrite Hnext. case_decide; split; intros Hx; try lia; try by eexists.
    by destruct Hx. }
  split; [done|]. intros Hc ->. split.
  - intros Hp01. apply Hiff. lia.
  - intros ->. destruct (env_next out) eqn:Hn; [|done].
    assert (env_count out > (2 + 1) * 50) by (apply Hiff; by eexists). lia.
Qed.

(** C6. A collection request whose fetched rows are empty fails with 404
    "Not Found", however well-formed the query and also when the filter
    entity exists; no response is a 200 envelope with an empty results
    list. *)
Theorem empty_collection_not_found db request event_type year area area_id :
  (∀ et y a fa fid p pp cnt,
     validate_event_type event_type = Return et →
     validate_year year = Return y →
     validate_area area = Return a →
     scan_filter request a (reverse areas) = Return (fa, fid) →
     int_arg request "page" 0 = Return p →
     int_arg request "per_page" 50 = Return pp →
     truthy area_id = false →
     fetch_items db y a fa fid p pp (truthy (args_get (args request) "all_results"))
       = Return (cnt, []) →
     results_by_area db request event_type year area area_id = raise 404 "Not Found")
  ∧ (∀ out,
       results_by_area db request event_type year area area_id = Return (Collection out) →
       env_results out ≠ []).
Proof.
  split.
  - intros et y a fa fid p pp cnt Het Hy Ha Hscan Hp Hpp Hid Hfetch.
    rewrite (results_by_area_collection db request event_type year area area_id
               et y a fa fid p pp) by done.
    by rewrite Hfetch.
  - intros out H.
    apply collection_inv in H
      as (et & y & a & fa & fid & p & pp & items & _ & _ & _ & _ & _ & _
          & _ & _ & Hne & _ & ->).
    by destruct items.
Qed.


(** C9. The [all_results] mode is switched on by any non-empty value of
    the parameter, "false" and "0" included: the results are then all
    matching rows. Only when the parameter is absent or empty are the
    results the page cut out by [page] and [per_page]. *)
Theorem all_results_any_value db request event_type year area area_id out :
  results_by_area db request event_type year area area_id = Return (Collection out) →
  ∃ et y a fa fid p pp matching,
    validate_event_type event_type = Return et ∧
    validate_year year = Return y ∧
    validate_area area = Return a ∧
    scan_filter request a (reverse areas) = Return (fa, fid) ∧
    int_arg request "page" 0 = Return p ∧
    int_arg request "per_page" 50 = Return pp ∧
    selects db y a fa fid matching ∧
    ((∃ v, args_get (args request) "all_results" = Some v ∧ v ≠ "") →
       env_results out = record_of et <$> order_by matching) ∧
    (args_get (args request) "all_results" = Some "false"
     ∨ args_get (args request) "all_results" = Some "0" →
       env_results out = record_of et <$> order_by matching) ∧
    (args_get (args request) "all_results" = None
     ∨ args_get (args request) "all_results" = Some "" →
       env_results out
         = record_of et
             <$> take (Z.to_nat pp) (drop (Z.to_nat (p * pp)) (order_by matching))).
Proof.
  intros H.
  apply collection_inv in H
    as (et & y & a & fa & fid & p & pp & items & Het & Hy & Ha & Hscan & Hp & Hpp
        & _ & Hfetch & _ & _ & Hres).
  apply fetch_items_Return in Hfetch as (matching & Hsel & Hcnt & Hall & Hpaged).
  exists et, y, a, fa, fid, p, pp, matching.
  repeat split; try done.
  - intros (v & Hv & Hne). rewrite Hv in Hall.
    by rewrite Hres, Hall by by apply truthy_Some.
  - intros [Hv | Hv]; rewrite Hv in Hall; by rewrite Hres, Hall.
  - intros [Hv | Hv]; rewrite Hv in Hpaged;
      destruct (Hpaged eq_refl) as (_ & _ & ->); by rewrite Hres.
Qed.

(** ** No dictionary is read at a missing key *)

Ltac scan_literal :=
  repeat index_literal; cbv beta iota; repeat case_decide; try lia.

(** What the scan hands on: no filter, or a non-empty value for an area
    strictly coarser than the requested one. *)
Lemma scan_filter_Return request a fa fid :
  a ∈ areas →
  scan_filter request a (reverse areas) = Return (fa, fid) →
  (fa = None ∧ fid = None
   ∧ ∀ G, G ∈ areas → truthy (args_get (args request) G) = false)
  ∨ (∃ f v i j,
       fa = Some f ∧ fid = Some v ∧ truthy (Some v) = true ∧
       index areas f = Some i ∧ index areas a = Some j ∧ (i < j)%nat).
Proof.
  intros Ha. rewrite reverse_areas. cbn [scan_filter].
  destruct (truthy (args_get (args request) "voting_district")) eqn:Hvd.
  { apply areas_cases in Ha as [-> | [-> | [-> | ->]]];
      scan_literal; try done. }
  destruct (truthy (args_get (args request) "ward")) eqn:Hw.
  { apply areas_cases in Ha as [-> | [-> | [-> | ->]]];
      scan_literal; try done.
    intros [= <- <-]. right.
    exists "ward", (default "" (args_get (args request) "ward")), 2%nat, 3%nat.
    destruct (args_get (args request) "ward"); repeat split; try done; lia. }
  destruct (truthy (args_get (args request) "municipality")) eqn:Hm.
  { apply areas_cases in Ha as [-> | [-> | [-> | ->]]];
      scan_literal; try done.
    - intros [= <- <-]. right.
      exists "municipality", (default "" (args_get (args request) "municipality")),
        1%nat, 2%nat.
      destruct (args_get (args request) "municipality"); repeat split; try done; lia.
    - intros [= <- <-]. right.
      exists "municipality", (default "" (args_get (args request) "municipality")),
        1%nat, 3%nat.
      destruct (args_get (args request) "municipality"); repeat split; try done; lia. }
  destruct (truthy (args_get (args request) "province")) eqn:Hp.
  { apply areas_cases in Ha as [-> | [-> | [-> | ->]]];
      scan_literal; try done.
    - intros [= <- <-]. right.
      exists "province", (default "" (args_get (args request) "province")),
        0%nat, 1%nat.
      destruct (args_get (args request) "province"); repeat split; try done; lia.
    - intros [= <- <-]. right.
      exists "province", (default "" (args_get (args request) "province")),
        0%nat, 2%nat.
      destruct (args_get (args request) "province"); repeat split; try done; lia.
    - intros [= <- <-]. right.
      exists "province", (default "" (args_get (args request) "province")),
        0%nat, 3%nat.
      destruct (args_get (args request) "province"); repeat split; try done; lia. }
  intros [= <- <-]. left. repeat split.
  intros G [-> | [-> | [-> | ->]]]%areas_cases; done.
Qed.

Lemma model_filters_lookup f a i j :
  index areas f = Some i → index areas a = Some j → (i < j)%nat →
  ∃ rel, (model_filters !! a ≫= (.!! f)) = Some rel.
Proof.
  intros Hf Ha Hij.
  apply index_areas_Some in Hf as [[-> ->]|[[-> ->]|[[-> ->]|[-> ->]]]];
    apply index_areas_Some in Ha as [[-> ->]|[[-> ->]|[[-> ->]|[-> ->]]]];
    try lia; by eexists.
Qed.

(** With a validated area and a filter the scan let through, fetching
    either misses the filter entity (404) or pages through the rows asked
    for. *)
Lemma fetch_items_cases db request y a fa fid p pp flag :
  a ∈ areas →
  scan_filter request a (reverse areas) = Return (fa, fid) →
  fetch_items db y a fa fid p pp flag
    = raise 404
        "Could not find the specified filter. Check that you have provided a valid ID, or remove the filter."
  ∨ ∃ matching,
      selects db y a fa fid matching ∧
      fetch_items db y a fa fid p pp flag
        = (if flag then Return (order_by matching)
           else limit_offset pp (p * pp) (order_by matching))
          ≫= λ items, Return (Z.of_nat (length matching), items).
Proof.
  intros Ha Hscan.
  destruct (models_lookup db a Ha) as [model Hmodel].
  apply (scan_filter_Return _ _ _ _ Ha) in Hscan
    as [(-> & -> & _) | (f & v & i & j & -> & -> & Hv & Hi & Hj & Hij)].
  - right. exists (filter (in_year y) model). split; [by constructor|].
    unfold fetch_items. by rewrite (getitem_Some _ _ _ Hmodel).
  - destruct (model_filters_lookup f a i j Hi Hj Hij) as [rel Hrel].
    assert (f ∈ areas) as Hf.
    { apply index_areas_Some in Hi as [[-> _]|[[-> _]|[[-> _]|[-> _]]]];
        unfold areas; rewrite !elem_of_cons; tauto. }
    destruct (models_lookup db f Hf) as [fmodel Hfmodel].
    unfold fetch_items.
    destruct f as [|c1 f]; [by vm_compute in Hi|]. destruct v as [|c2 v]; [done|].
    rewrite (getitem_Some _ _ _ Hfmodel). outcome_simpl.
    destruct (first (filter (has_id (String c2 v)) fmodel)) as [obj|] eqn:Hobj;
      [|by left].
    right. exists (filter (λ r, in_year y r ∧ belongs_to rel obj r) model).
    split; [by eapply selects_children|].
    rewrite (getitem_Some _ _ _ Hmodel). outcome_simpl.
    destruct (model_filters !! a) as [area_filters|] eqn:Haf; [|done].
    simpl in Hrel. rewrite (getitem_Some _ _ _ Haf). outcome_simpl.
    rewrite (getitem_Some _ _ _ Hrel). outcome_simpl.
    assert (filter (λ r, in_year y r ∧ belongs_to rel obj r) model
            = filter (belongs_to rel obj) (filter (in_year y) model)) as ->.
    { rewrite list_filter_filter. apply list_filter_iff. intros r. tauto. }
    done.
Qed.

(** ** Paging parameters *)

Lemma int_arg_str request key default n :
  args_get (args request) key = Some (py_str n) →
  int_arg request key default = Return n.
Proof.
  intros Hget. unfold int_arg. rewrite Hget.
  destruct (py_str_nonempty n) as (c & r & Hstr).
  rewrite Hstr, <- Hstr. by rewrite py_int_str.
Qed.

Lemma int_arg_422 request key default :
  is_422 (int_arg request key default) ↔
  ∃ v, args_get (args request) key = Some v ∧ v ≠ "" ∧ py_int v = None.
Proof.
  unfold int_arg. destruct (args_get (args request) key) as [[|c r]|]; simpl.
  - split; [done|]. by intros (v & [= <-] & ? & _).
  - destruct (py_int (String c r)) eqn:Hint; simpl.
    + split; [done|]. intros (v & [= <-] & _ & Hv). congruence.
    + split; [|done]. intros _. by exists (String c r).
  - split; [done|]. by intros (v & [=] & _).
Qed.

(** Once the path, the filter and the paging parameters are through, no
    422 is left to raise. *)
Lemma validated_not_422 db request event_type year area area_id et y a fa fid p pp :
  validate_event_type event_type = Return et →
  validate_year year = Return y →
  validate_area area = Return a →
  scan_filter request a (reverse areas) = Return (fa, fid) →
  int_arg request "page" 0 = Return p →
  int_arg request "per_page" 50 = Return pp →
  ¬ is_422 (results_by_area db request event_type year area area_id).
Proof.
  intros Het Hy Ha Hscan Hp Hpp.
  destruct (validate_area_Return _ _ Ha) as [Hin _].
  destruct (truthy area_id) eqn:Hid.
  - unfold results_by_area. rewrite Het, Hy, Ha. outcome_simpl.
    rewrite Hscan. outcome_simpl. rewrite Hp, Hpp. outcome_simpl.
    destruct area_id as [[|c r]|]; try done.
    destruct (models_lookup db a Hin) as [model Hmodel].
    rewrite (getitem_Some _ _ _ Hmodel). outcome_simpl.
    destruct (first (filter (has_id (String c r)) model)); cbn; [tauto|lia].
  - rewrite (results_by_area_collection db request event_type year area area_id
               et y a fa fid p pp) by done.
    destruct (fetch_items_cases db request y a fa fid p pp
                (truthy (args_get (args request) "all_results")) Hin Hscan)
      as [-> | (matching & _ & ->)]; [cbn; lia|].
    destruct (truthy (args_get (args request) "all_results")); outcome_simpl.
    + case_decide; cbn; (tauto || lia).
    + unfold limit_offset. case_decide; outcome_simpl; [tauto|].
      case_decide; cbn; (tauto || lia).
Qed.

(** C10 (amended). [page] and [per_page] are checked for being integers
    only: every integer, zero and negative ones included, is taken without a
    422. With [per_page = 0] the condition [count > (page + 1) * per_page]
    holds on every page as soon as [count > 0]; a response then carries a
    [next] link on every page when [all_results] is set, whereas without
    [all_results] no row is fetched and the request fails with 404. *)
Theorem paging_parameters db request event_type year area area_id et y a fa fid :
  validate_event_type event_type = Return et →
  validate_year year = Return y →
  validate_area area = Return a →
  scan_filter request a (reverse areas) = Return (fa, fid) →
  truthy area_id = false →
  (∀ key default n,
     args_get (args request) key = Some (py_str n) →
     int_arg request key default = Return n)
  ∧ (∀ key default,
       is_422 (int_arg request key default) ↔
       ∃ v, args_get (args request) key = Some v ∧ v ≠ "" ∧ py_int v = None)
  ∧ (∀ p pp,
       int_arg request "page" 0 = Return p →
       int_arg request "per_page" 50 = Return pp →
       ¬ is_422 (results_by_area db request event_type year area area_id))
  ∧ (∀ p,
       int_arg request "page" 0 = Return p →
       int_arg request "per_page" 50 = Return 0 →
       (∀ page cnt, 0 < cnt → cnt > (page + 1) * 0)
       ∧ (∀ out,
            results_by_area db request event_type year area area_id
              = Return (Collection out) →
            truthy (args_get (args request) "all_results") = true
            ∧ is_Some (env_next out))
       ∧ (truthy (args_get (args request) "all_results") = false →
          is_404 (results_by_area db request event_type year area area_id))).
Proof.
  intros Het Hy Ha Hscan Hid.
  split; [apply int_arg_str|]. split; [apply int_arg_422|].
  split; [intros p pp Hp Hpp; by eapply validated_not_422|].
  intros p Hp Hpp. split; [intros; lia|]. split.
  - intros out H.
    apply collection_inv in H
      as (et' & y' & a' & fa' & fid' & p' & pp' & items & _ & _ & _ & _ & Hp' & Hpp'
          & _ & Hfetch & Hne & Hnext & _).
    rewrite Hp in Hp'. rewrite Hpp in Hpp'. simplify_eq.
    apply fetch_items_Return in Hfetch as (matching & _ & Hcnt & Hall & Hpaged).
    destruct (truthy (args_get (args request) "all_results")).
    + split; [done|]. rewrite Hnext, Hcnt.
      rewrite (Hall eq_refl) in Hne.
      assert (length matching ≠ 0%nat).
      { rewrite <- order_by_length. by destruct (order_by matching). }
      destruct (decide ((p' + 1) * 0 < Z.of_nat (length matching)));
        [by eexists|lia].
    + by destruct (Hpaged eq_refl) as (_ & _ & ->).
  - intros Hflag. destruct (validate_area_Return _ _ Ha) as [Hin _].
    rewrite (results_by_area_collection db request event_type year area area_id
               et y a fa fid p 0) by done.
    rewrite Hflag.
    destruct (fetch_items_cases db request y a fa fid p 0 false Hin Hscan)
      as [-> | (matching & _ & ->)]; [done|].
    unfold limit_offset. case_decide; [lia|]. by outcome_simpl.
Qed.

(** C10 as stated fails: two provinces are stored for 2009, so the count is
    positive, yet the request with [per_page=0] answers 404 and carries no
    [next] link. *)
Lemma per_page_zero_no_next_link :
  count (filter (in_year 2009) (provinces db_two_provinces)) = 2
  ∧ results_by_area db_two_provinces (mkRequest host [("per_page", "0")])
      "national" "2009" "province" None = raise 404 "Not Found"
  ∧ ¬ ∃ out,
        results_by_area db_two_provinces (mkRequest host [("per_page", "0")])
          "national" "2009" "province" None = Return (Collection out)
        ∧ is_Some (env_next out).
Proof.
  assert (results_by_area db_two_provinces (mkRequest host [("per_page", "0")])
            "national" "2009" "province" None = raise 404 "Not Found") as H
    by by vm_compute.
  split; [by vm_compute|]. split; [done|].
  intros (out & Hout & _). rewrite H in Hout. done.
Qed.

(** ** Following [next] links *)

Lemma follow_links_S db n c :
  follow_links db (S n) c = follow db c ≫= follow_links db n.
Proof. reflexivity. Qed.

Section pages.

Variables (db : Store) (root et : string) (y : Z) (a : string) (model : list Row).
Hypothesis Het : et ∈ event_types.
Hypothesis Hy : y ∈ years.
Hypothesis Ha : a ∈ areas.
Hypothesis Hmodel : models db !! a = Some model.

(** The rows of the year, in order, and their number. *)
Let rows := order_by (filter (in_year y) model).
Let total := count (filter (in_year y) model).

Lemma page_call_url q :
  next_url (mkRequest root [("page", py_str q)]) et y a q
  = url_of (page_call root et y a (q + 1)).
Proof. reflexivity. Qed.

Lemma page_call_page q :
  int_arg (call_request (page_call root et y a q)) "page" 0 = Return q.
Proof. by apply int_arg_str. Qed.

Lemma next_call_page_call q :
  next_call (page_call root et y a q) = Return (page_call root et y a (q + 1)).
Proof.
  unfold next_call. cbn [page_call call_event_type call_year call_area].
  rewrite validate_event_type_valid, validate_year_valid, validate_area_valid
    by done.
  outcome_simpl. fold (page_call root et y a q). by rewrite page_call_page.
Qed.

(** The response to the call of one page. *)
Lemma page_call_eq q :
  call db (page_call root et y a q) =
    limit_offset 50 (q * 50) rows ≫= λ items,
      if decide (items = []) then raise 404 "Not Found"
      else Return (Collection (mkEnvelope total
             (if decide ((q + 1) * 50 < total)
              then Some (url_of (page_call root et y a (q + 1))) else None)
             (record_of et <$> items))).
Proof.
  assert (∀ G, G ∈ areas →
            truthy (args_get (args (call_request (page_call root et y a q))) G)
            = false) as Hnone
    by (intros G [-> | [-> | [-> | ->]]]%areas_cases; reflexivity).
  unfold call, page_call. cbn [call_request call_event_type call_year call_area].
  rewrite (results_by_area_collection db (mkRequest root [("page", py_str q)])
             et (py_str y) a None et y a None None q 50
             (validate_event_type_valid _ Het) (validate_year_valid _ Hy)
             (validate_area_valid _ Ha) (scan_filter_none _ _ Hnone)
             (page_call_page q) eq_refl eq_refl).
  unfold fetch_items. rewrite (getitem_Some _ _ _ Hmodel). outcome_simpl.
  cbn [args args_get]. cbn [truthy].
  fold rows total. by destruct (limit_offset 50 (q * 50) rows).
Qed.

Lemma follow_page_call q c' :
  follow db (page_call root et y a q) = Some c' →
  c' = page_call root et y a (q + 1) ∧ (q + 1) * 50 < total.
Proof.
  unfold follow. rewrite page_call_eq, next_call_page_call.
  destruct (limit_offset 50 (q * 50) rows) as [items| |]; outcome_simpl; [|done..].
  case_decide; [done|]. cbn [env_next].
  destruct (decide ((q + 1) * 50 < total)); [|done]. by intros [= <-].
Qed.

(** Paging forward from any page runs out of [next] links. *)
Lemma page_chain_ends n q :
  total - 50 * (q + 1) < Z.of_nat n →
  follow_links db (S n) (page_call root et y a q) = None.
Proof.
  revert q. induction n as [|n IH]; intros q Hn; cbn [follow_links].
  - destruct (follow db (page_call root et y a q)) as [c'|] eqn:Hf; [|done].
    apply follow_page_call in Hf as [_ ?]. lia.
  - destruct (follow db (page_call root et y a q)) as [c'|] eqn:Hf; [|done].
    apply follow_page_call in Hf as [-> ?]. simpl. apply IH. lia.
Qed.

End pages.

(** C3 (amended). The [next] link of a collection response addresses the
    same event type, year and area with [page + 1] and no other query
    parameter; that request passes validation (it is never answered 422).
    When the request that produced the link had no filter, [per_page = 50]
    and [page >= -1], the request of the link returns a non-empty page of
    the same collection, whose own [next] is null exactly on the final
    page. Following [next] links always comes to an end. *)
Theorem next_link_followed db c out :
  call db c = Return (Collection out) →
  is_Some (env_next out) →
  ∃ c' p,
    int_arg (call_request c) "page" 0 = Return p ∧
    next_call c = Return c' ∧
    args (call_request c') = [("page", py_str (p + 1))] ∧
    env_next out = Some (url_of c') ∧
    follow db c = Some c' ∧
    ¬ is_422 (call db c') ∧
    ((∀ G, G ∈ areas → truthy (args_get (args (call_request c)) G) = false) →
     int_arg (call_request c) "per_page" 50 = Return 50 →
     -1 ≤ p →
     ∃ out',
       call db c' = Return (Collection out') ∧
       env_results out' ≠ [] ∧
       env_count out' = env_count out ∧
       (env_next out' = None ↔ env_count out' ≤ (p + 2) * 50)) ∧
    ∃ n, follow_links db n c = None.
Proof.
  intros H Hnext. pose proof H as Hcall. unfold call in H.
  apply collection_inv in H
    as (et & y & a & fa & fid & p & pp & items & Het & Hy & Ha & Hscan & Hp & Hpp
        & _ & Hfetch & Hne & Hnx & Hres).
  destruct (validate_event_type_Return _ _ Het) as [Het' _].
  destruct (validate_year_Return _ _ Hy) as [Hy' _].
  destruct (validate_area_Return _ _ Ha) as [Ha' _].
  destruct (models_lookup db a Ha') as [model Hmodel].
  set (c' := page_call (url_root (call_request c)) et y a (p + 1)).
  assert (next_call c = Return c') as Hnc.
  { unfold next_call. rewrite Het, Hy, Ha. outcome_simpl. by rewrite Hp. }
  assert ((p + 1) * pp < env_count out ∧ env_next out = Some (url_of c'))
    as [Hlt Hurl].
  { rewrite Hnx in Hnext |- *.
    destruct (decide ((p + 1) * pp < env_count out)); [done|by destruct Hnext]. }
  assert (follow db c = Some c') as Hfollow.
  { unfold follow. by rewrite Hcall, Hurl, Hnc. }
  pose proof (page_call_eq db (url_root (call_request c)) et y a model
                Het' Hy' Ha' Hmodel (p + 1)) as Hpage.
  fold c' in Hpage.
  exists c', p. repeat split; try done.
  - rewrite Hpage. apply bind_not_422.
    + unfold limit_offset. destruct (decide (50 < 0 ∨ (p + 1) * 50 < 0)); cbn; tauto.
    + intros items'. destruct (decide (items' = [])); cbn; (tauto || lia).
  - intros Hnone Hfifty Hge.
    rewrite (scan_filter_none _ _ Hnone) in Hscan. injection Hscan as <- <-.
    rewrite Hfifty in Hpp. injection Hpp as <-.
    apply fetch_items_Return in Hfetch as (matching & Hsel & Hcnt & _).
    inversion Hsel as [? ? model' _ Hmodel' |]; subst.
    rewrite Hmodel in Hmodel'. injection Hmodel' as <-.
    set (rows := order_by (filter (in_year y) model)) in *.
    assert (length rows = length (filter (in_year y) model)) as Hlen
      by apply order_by_length.
    assert (take (Z.to_nat 50) (drop (Z.to_nat ((p + 1) * 50)) rows) ≠ [])
      as Hitems.
    { intros Hnil. apply (f_equal length) in Hnil.
      rewrite length_take, length_drop in Hnil. cbn [length] in Hnil. lia. }
    eexists. split.
    + rewrite Hpage. unfold limit_offset.
      destruct (decide (50 < 0 ∨ (p + 1) * 50 < 0)) as [?|_]; [lia|].
      outcome_simpl.
      by destruct (decide (take (Z.to_nat 50) (drop (Z.to_nat ((p + 1) * 50)) rows)
                           = [])).
    + cbn [env_results env_count env_next]. repeat split.
      * intros Hnil%fmap_nil_inv. by apply Hitems.
      * unfold count. lia.
      * unfold count.
        destruct (decide ((p + 1 + 1) * 50
                          < Z.of_nat (length (filter (in_year y) model))));
          [done|lia].
      * unfold count.
        destruct (decide ((p + 1 + 1) * 50
                          < Z.of_nat (length (filter (in_year y) model))));
          [lia|done].
  - exists (S (S (S (Z.to_nat (count (filter (in_year y) model) - 50 * (p + 2)))))).
    rewrite follow_links_S, Hfollow.
    change (follow_links db
              (S (S (Z.to_nat (count (filter (in_year y) model) - 50 * (p + 2)))))
              c' = None).
    apply (page_chain_ends db (url_root (call_request c)) et y a model
             Het' Hy' Ha' Hmodel). lia.
Qed.

(** C3 as stated fails: with two provinces and one row per page, the first
    response carries a [next] link, and the request of that link (page 1 at
    the default page size) answers 404. *)
Lemma next_link_to_not_found :
  (∃ out,
     call db_two_provinces one_per_page = Return (Collection out) ∧
     env_next out = Some "http://localhost/national/2009/province/?page=1")
  ∧ next_call one_per_page = Return (page_call host "national" 2009 "province" 1)
  ∧ url_of (page_call host "national" 2009 "province" 1)
    = "http://localhost/national/2009/province/?page=1"
  ∧ call db_two_provinces (page_call host "national" 2009 "province" 1)
    = raise 404 "Not Found"
  ∧ ¬ ∃ out',
        call db_two_provinces (page_call host "national" 2009 "province" 1)
        = Return (Collection out').
Proof.
  assert (call db_two_provinces (page_call host "national" 2009 "province" 1)
          = raise 404 "Not Found") as H by by vm_compute.
  split; [eexists; split; by vm_compute|].
  split; [by vm_compute|]. split; [by vm_compute|]. split; [done|].
  intros (out' & Hout). rewrite H in Hout. done.
Qed.

(** ** Single entities and filter entities: the year is not looked at *)

(** The single-entity branch: the first row of the table with the
    identifier, whatever its year. *)
Lemma results_by_area_single
    db request event_type year area c r et y a fa fid p pp model :
  validate_event_type event_type = Return et →
  validate_year year = Return y →
  validate_area area = Return a →
  scan_filter request a (reverse areas) = Return (fa, fid) →
  int_arg request "page" 0 = Return p →
  int_arg request "per_page" 50 = Return pp →
  models db !! a = Some model →
  results_by_area db request event_type year area (Some (String c r)) =
    serialize_area (AreaItem <$> first (filter (has_id (String c r)) model)) et
    ≫= λ out, Return (Single out).
Proof.
  intros Het Hy Ha Hscan Hp Hpp Hmodel. unfold results_by_area.
  rewrite Het, Hy, Ha. outcome_simpl. rewrite Hscan. outcome_simpl.
  rewrite Hp, Hpp. outcome_simpl. by rewrite (getitem_Some _ _ _ Hmodel).
Qed.

(** C1 (the code at the failing input). Western Cape is stored for 1999
    only; the request for Western Cape in 2009 finds no row of 2009 and is
    nevertheless answered with the record of the 1999 row. *)
Theorem single_entity_other_year :
  (∀ r, r ∈ provinces db_1999_only → year r ≠ 2009)
  ∧ results_by_area db_1999_only (mkRequest host []) "national" "2009" "province"
      (Some "WC")
    = Return (Single (record_of "national" (province_row 1 "WC" 1999))).
Proof.
  split; [|by vm_compute].
  intros r Hr. apply list_elem_of_singleton in Hr as ->. by vm_compute.
Qed.

(** C2 (the code at the failing input). Western Cape is stored for 1999 and
    for 2009, and Cape Town belongs to the 2009 row; the municipalities of
    2009 filtered by Western Cape are resolved against the 1999 row, which
    has no municipality in 2009, and the request is answered 404. *)
Theorem filter_entity_other_year :
  province_row 2 "WC" 2009 ∈ provinces db_two_years
  ∧ filter (λ r, in_year 2009 r ∧ belongs_to province_pk (province_row 2 "WC" 2009) r)
      (municipalities db_two_years)
    = [municipality_row 1 "CPT" 2009 2]
  ∧ first (filter (has_id "WC") (provinces db_two_years))
    = Some (province_row 1 "WC" 1999)
  ∧ results_by_area db_two_years (mkRequest host [("province", "WC")])
      "national" "2009" "municipality" None
    = raise 404 "Not Found".
Proof.
  split; [|split; [|split]]; try by vm_compute.
  unfold db_two_years, provinces. apply list_elem_of_further, list_elem_of_here.
Qed.

(** C8 (the code at the failing input). Western Cape is stored for 1999 and
    for 2009, and Cape Town belongs to the 2009 row. By the specification
    the filter entity of [province=WC] in 2009 is the 2009 row, and the rows
    matching the year and the filter are Cape Town alone: the results should
    hold that one row, with [all_results] and on page 0 alike. The view
    resolves the filter by identifier alone, to the 1999 row, and answers
    both requests 404. *)
Theorem collection_rows_other_year :
  spec_filter_entity db_two_years 2009 "province" "WC"
    = Some (province_row 2 "WC" 2009)
  ∧ spec_matching_rows db_two_years 2009 "municipality" (Some "province") (Some "WC")
    = Some [municipality_row 1 "CPT" 2009 2]
  ∧ scan_filter (mkRequest host [("province", "WC"); ("all_results", "1")])
      "municipality" (reverse areas)
    = Return (Some "province", Some "WC")
  ∧ truthy (args_get [("province", "WC"); ("all_results", "1")] "all_results") = true
  ∧ results_by_area db_two_years
      (mkRequest host [("province", "WC"); ("all_results", "1")])
      "national" "2009" "municipality" None
    = raise 404 "Not Found"
  ∧ results_by_area db_two_years
      (mkRequest host [("province", "WC"); ("page", "0"); ("per_page", "10")])
      "national" "2009" "municipality" None
    = raise 404 "Not Found".
Proof. repeat split; by vm_compute. Qed.

(** Where every row shares its year with the coarser rows it references, a
    filter identifier that has no row in the requested year still ends in
    404: by the filter check when no year holds the identifier, and through
    the empty collection otherwise. *)
Lemma filter_without_row_of_year
    db request event_type year area area_id et y a f v p pp :
  validate_event_type event_type = Return et →
  validate_year year = Return y →
  validate_area area = Return a →
  scan_filter request a (reverse areas) = Return (Some f, Some v) →
  int_arg request "page" 0 = Return p →
  int_arg request "per_page" 50 = Return pp →
  truthy area_id = false →
  (∀ model filter_model rel r obj,
     models db !! a = Some model →
     models db !! f = Some filter_model →
     (model_filters !! a ≫= (.!! f)) = Some rel →
     r ∈ model → obj ∈ filter_model → rel r = Some (pk obj) →
     ∀ y', in_year y' r → in_year y' obj) →
  (∀ filter_model obj,
     models db !! f = Some filter_model →
     obj ∈ filter_model → has_id v obj → ¬ in_year y obj) →
  is_404 (results_by_area db request event_type year area area_id)
  ∨ results_by_area db request event_type year area area_id
    = Unhandled NegativeLimitOffset.
Proof.
  intros Het Hy Ha Hscan Hp Hpp Hid Hsame Hnone.
  destruct (validate_area_Return _ _ Ha) as [Hin _].
  rewrite (results_by_area_collection db request event_type year area area_id
             et y a (Some f) (Some v) p pp) by done.
  destruct (fetch_items_cases db request y a (Some f) (Some v) p pp
              (truthy (args_get (args request) "all_results")) Hin Hscan)
    as [-> | (matching & Hsel & ->)]; [by left|].
  assert (matching = []) as ->.
  { inversion Hsel as [? ? model Hfalsy Hmodel
                      |? ? filter_model obj model rel _ _ Hfm Hobj Hmodel Hrel];
      subst.
    - apply (scan_filter_Return _ _ _ _ Hin) in Hscan
        as [(? & _) | (f' & v' & i & j & [= <-] & [= <-] & Hv & Hi & _)]; [done|].
      destruct f as [|? ?]; [by vm_compute in Hi|].
      by rewrite Hv in Hfalsy.
    - apply first_filter_elem in Hobj as [Hobj Hv].
      destruct (filter _ model) as [|r rest] eqn:Hrows; [done|].
      assert (r ∈ filter (λ r, in_year y r ∧ belongs_to rel obj r) model)
        as [[Hyear Hrel'] Hr]%list_elem_of_filter
        by (rewrite Hrows; apply list_elem_of_here).
      destruct (Hnone filter_model obj Hfm Hobj Hv).
      by apply (Hsame model filter_model rel r obj). }
  change (order_by []) with (@nil Row).
  destruct (truthy (args_get (args request) "all_results")); outcome_simpl.
  - by left.
  - unfold limit_offset. case_decide; outcome_simpl; [by right|].
    left. by rewrite drop_nil, take_nil.
Qed.

(** * The theorems at concrete requests *)

Lemma overview_links_witness :
  ∃ out,
    results_overall db_country (mkRequest host []) "National" "2009" = Return out
    ∧ out !! "ward" = Some "http://localhost/national/2009/ward/".
Proof.
  destruct (overview_links db_country (mkRequest host []) "National" "2009"
              "national" 2009 eq_refl eq_refl) as [Hlinks Hret].
  destruct Hret as [out Hout].
  { exists (mkCountry 1 2009 "provincial totals" "national totals" true).
    split; [apply list_elem_of_here|reflexivity]. }
  exists out. split; [exact Hout|].
  destruct (Hlinks out Hout) as (_ & _ & _ & Hward & _). apply Hward. lia.
Defined.

Lemma filter_selection_witness :
  scan_filter (mkRequest host [("province", "WC"); ("ward", "3")])
    "voting_district" (reverse areas)
  = Return (Some "ward", Some "3").
Proof.
  destruct (filter_selection (mkRequest host [("province", "WC"); ("ward", "3")])
              "voting_district" 3%nat eq_refl) as [_ Hfirst].
  destruct (Hfirst "ward" 2%nat eq_refl eq_refl) as [Hscan _].
  { intros G k HG Hk.
    apply index_areas_Some in HG as [[-> ->]|[[-> ->]|[[-> ->]|[-> ->]]]];
      (lia || reflexivity). }
  exact Hscan.
Defined.

Lemma next_link_iff_witness :
  ∃ out,
    results_by_area (db_provinces 120)
      (mkRequest host [("page", "2"); ("per_page", "50")])
      "national" "2009" "province" None = Return (Collection out)
    ∧ env_count out = 120
    ∧ env_next out = None.
Proof.
  assert (∃ out,
    results_by_area (db_provinces 120)
      (mkRequest host [("page", "2"); ("per_page", "50")])
      "national" "2009" "province" None = Return (Collection out)
    ∧ env_count out = 120) as (out & H & Hc).
  { vm_compute. eexists. split; reflexivity. }
  exists out. split; [exact H|]. split; [exact Hc|].
  destruct (next_link_iff _ _ _ _ _ _ out 2 50 H eq_refl eq_refl) as [_ Hpages].
  destruct (Hpages Hc eq_refl) as [_ Hlast]. by apply Hlast.
Defined.

Lemma empty_collection_not_found_witness :
  results_by_area db_two_provinces (mkRequest host [("province", "EC")])
    "provincial" "2009" "municipality" None
  = raise 404 "Not Found".
Proof.
  apply (proj1 (empty_collection_not_found db_two_provinces
                  (mkRequest host [("province", "EC")])
                  "provincial" "2009" "municipality" None)
           "provincial" 2009 "municipality" (Some "province") (Some "EC") 0 50 0);
    reflexivity.
Defined.

Lemma all_results_any_value_witness :
  ∃ out et matching,
    results_by_area db_two_provinces
      (mkRequest host [("per_page", "1"); ("all_results", "false")])
      "national" "2009" "province" None = Return (Collection out)
    ∧ env_count out = 2
    ∧ env_results out = record_of et <$> order_by matching.
Proof.
  assert (∃ out,
    results_by_area db_two_provinces
      (mkRequest host [("per_page", "1"); ("all_results", "false")])
      "national" "2009" "province" None = Return (Collection out)
    ∧ env_count out = 2) as (out & H & Hc).
  { vm_compute. eexists. split; reflexivity. }
  destruct (all_results_any_value _ _ _ _ _ _ out H)
    as (et & y & a & fa & fid & p & pp & matching & _ & _ & _ & _ & _ & _ & _
        & _ & Hfalse & _).
  exists out, et, matching. split; [exact H|]. split; [exact Hc|].
  apply Hfalse. by left.
Defined.

Lemma paging_parameters_witness :
  int_arg (mkRequest host [("per_page", "0")]) "per_page" 50 = Return 0
  ∧ is_404 (results_by_area db_two_provinces (mkRequest host [("per_page", "0")])
              "national" "2009" "province" None).
Proof.
  split; [reflexivity|].
  destruct (paging_parameters db_two_provinces (mkRequest host [("per_page", "0")])
              "national" "2009" "province" None "national" 2009 "province" None None
              eq_refl eq_refl eq_refl eq_refl eq_refl)
    as (_ & _ & _ & Hzero).
  destruct (Hzero 0 eq_refl eq_refl) as (_ & _ & Hpaged).
  by apply Hpaged.
Defined.

Lemma next_link_followed_witness :
  ∃ c' out',
    next_call first_page = Return c'
    ∧ call (db_provinces 120) c' = Return (Collection out')
    ∧ env_results out' ≠ []
    ∧ ∃ n, follow_links (db_provinces 120) n first_page = None.
Proof.
  assert (∃ out,
    call (db_provinces 120) first_page = Return (Collection out)
    ∧ is_Some (env_next out)) as (out & H & Hnext).
  { vm_compute. eexists. split; [reflexivity|by eexists]. }
  destruct (next_link_followed (db_provinces 120) first_page out H Hnext)
    as (c' & p & Hp & Hnc & _ & _ & _ & _ & Hgood & Hend).
  vm_compute in Hp. injection Hp as <-.
  destruct Hgood as (out' & Hout' & Hne & _).
  { intros G [-> | [-> | [-> | ->]]]%areas_cases; reflexivity. }
  { reflexivity. }
  { lia. }
  by exists c', out'.
Defined.

(** ** Further runs *)

Example next_link_page_0 :
  ∃ out,
    results_by_area (db_provinces 120) (mkRequest host [("per_page", "50")])
      "national" "2009" "province" None = Return (Collection out)
    ∧ env_count out = 120
    ∧ env_next out = Some "http://localhost/national/2009/province/?page=1".
Proof. vm_compute. eexists. repeat split; reflexivity. Qed.

Example next_link_page_1 :
  ∃ out,
    results_by_area (db_provinces 120)
      (mkRequest host [("page", "1"); ("per_page", "50")])
      "national" "2009" "province" None = Return (Collection out)
    ∧ env_count out = 120
    ∧ env_next out = Some "http://localhost/national/2009/province/?page=2".
Proof. vm_compute. eexists. repeat split; reflexivity. Qed.

Example all_results_zero :
  ∃ out,
    results_by_area db_two_provinces
      (mkRequest host [("per_page", "1"); ("all_results", "0")])
      "national" "2009" "province" None = Return (Collection out)
    ∧ length (env_results out) = 2%nat.
Proof. vm_compute. eexists. split; reflexivity. Qed.

Example all_results_empty_value :
  ∃ out,
    results_by_area db_two_provinces
      (mkRequest host [("per_page", "1"); ("all_results", "")])
      "national" "2009" "province" None = Return (Collection out)
    ∧ length (env_results out) = 1%nat.
Proof. vm_compute. eexists. split; reflexivity. Qed.

Example per_page_zero_all_results :
  ∃ out,
    results_by_area db_two_provinces
      (mkRequest host [("per_page", "0"); ("page", "-7"); ("all_results", "1")])
      "national" "2009" "province" None = Return (Collection out)
    ∧ env_next out = Some "http://localhost/national/2009/province/?page=-6".
Proof. vm_compute. eexists. split; reflexivity. Qed.

Example finer_filter_rejected :
  results_by_area db_two_years (mkRequest host [("ward", "3")])
    "national" "2009" "municipality" None
  = raise 422 "The specified filter parameter cannot be used in this query.".
Proof. reflexivity. Qed.

(** * Further properties of the views *)

(** ** Validators *)

(** X1. Each validator either returns the lower-cased segment, a member of
    its list (for the year: the integer read, one of the supported years),
    or raises 422 with one fixed message that lists the valid values; an
    unreadable year and an unsupported one get the same message. *)
Theorem validators_accept_or_422 s :
  ((validate_event_type s = Return (lower s) ∧ lower s ∈ event_types)
   ∨ ((lower s ∉ event_types)
      ∧ validate_event_type s
        = raise 422
            "Incorrect event_type specified. Please use one of: provincial, national."))
  ∧ ((∃ y, py_int s = Some y ∧ y ∈ years ∧ validate_year s = Return y)
     ∨ ((∀ y, py_int s = Some y → y ∉ years)
        ∧ validate_year s
          = raise 422 "Incorrect year specified. Please use one of: 1999, 2004, 2009."))
  ∧ ((validate_area s = Return (lower s) ∧ lower s ∈ areas)
     ∨ ((lower s ∉ areas)
        ∧ validate_area s
          = raise 422
              "Incorrect area specified. Please use one of: province, municipality, ward, voting_district.")).
Proof.
  split; [|split].
  - unfold validate_event_type. case_decide; [by left|by right].
  - unfold validate_year. destruct (py_int s) as [y|].
    + case_decide; [left; by exists y|right]. split; [|done].
      by intros ? [= <-].
    + right. by split.
  - unfold validate_area. case_decide; [by left|by right].
Qed.

(** ** What [results_by_area] never does *)

Lemma scan_filter_cases request a :
  a ∈ areas →
  (∃ fa fid, scan_filter request a (reverse areas) = Return (fa, fid))
  ∨ scan_filter request a (reverse areas)
    = raise 422 "The specified filter parameter cannot be used in this query.".
Proof.
  intros Ha. rewrite reverse_areas. cbn [scan_filter].
  destruct (truthy (args_get (args request) "voting_district"));
    [apply areas_cases in Ha as [-> | [-> | [-> | ->]]];
     scan_literal; eauto|].
  destruct (truthy (args_get (args request) "ward"));
    [apply areas_cases in Ha as [-> | [-> | [-> | ->]]];
     scan_literal; eauto|].
  destruct (truthy (args_get (args request) "municipality"));
    [apply areas_cases in Ha as [-> | [-> | [-> | ->]]];
     scan_literal; eauto|].
  destruct (truthy (args_get (args request) "province"));
    [apply areas_cases in Ha as [-> | [-> | [-> | ->]]];
     scan_literal; eauto|].
  eauto.
Qed.

Lemma int_arg_cases request key default :
  (∃ n, int_arg request key default = Return n)
  ∨ int_arg request key default
    = raise 422 ("Please specify a valid '" +:+ key +:+ "'.").
Proof.
  unfold int_arg. destruct (args_get (args request) key) as [[|c r]|]; eauto.
  destruct (py_int (String c r)); eauto.
Qed.

Lemma validators_accept_or_422_aux event_type year area :
  (validate_event_type event_type = Return (lower event_type)
   ∨ validate_event_type event_type
     = raise 422
         "Incorrect event_type specified. Please use one of: provincial, national.")
  ∧ ((∃ y, validate_year year = Return y)
     ∨ validate_year year
       = raise 422 "Incorrect year specified. Please use one of: 1999, 2004, 2009.")
  ∧ (validate_area area = Return (lower area)
     ∨ validate_area area
       = raise 422
           "Incorrect area specified. Please use one of: province, municipality, ward, voting_district.").
Proof.
  split; [|split].
  - unfold validate_event_type. case_decide; [by left|by right].
  - unfold validate_year. destruct (py_int year) as [y|]; [|by right].
    case_decide; [left; by exists y|by right].
  - unfold validate_area. case_decide; [by left|by right].
Qed.

Lemma validators_ok event_type year area :
  (∃ e, status_code e = 422
        ∧ (validate_event_type event_type = Raise e
           ∨ (∃ et, validate_event_type event_type = Return et
                    ∧ validate_year year = Raise e)
           ∨ (∃ et y, validate_event_type event_type = Return et
                      ∧ validate_year year = Return y
                      ∧ validate_area area = Raise e)))
  ∨ ∃ et y a,
      validate_event_type event_type = Return et ∧
      validate_year year = Return y ∧
      validate_area area = Return a.
Proof.
  destruct (validators_accept_or_422_aux event_type year area)
    as (Het & Hy & Ha).
  destruct Het as [Het | Het]; [|left; eexists; split; [|by left]; done].
  destruct Hy as [[y Hy] | Hy];
    [|left; eexists; split; [|right; left; by eexists]; done].
  destruct Ha as [Ha | Ha];
    [|left; eexists; split; [|right; right; by eexists _, _]; done].
  right. by eexists _, _, _.
Qed.

(** The outcomes of a request: a 422 of one of the checks, in their order,
    or all checks passed. *)
Lemma validation_cases request event_type year area :
  (∃ e, status_code e = 422
        ∧ ∀ db area_id, results_by_area db request event_type year area area_id
                        = Raise e)
  ∨ ∃ et y a fa fid p pp,
      validate_event_type event_type = Return et ∧
      validate_year year = Return y ∧
      validate_area area = Return a ∧
      scan_filter request a (reverse areas) = Return (fa, fid) ∧
      int_arg request "page" 0 = Return p ∧
      int_arg request "per_page" 50 = Return pp.
Proof.
  unfold results_by_area.
  destruct (validators_ok event_type year area)
    as [(e & He & [H | [(et & Het & H) | (et & y & Het & Hy & H)]])
       | (et & y & a & Het & Hy & Ha)].
  - left. exists e. split; [done|]. intros. by rewrite H.
  - left. exists e. split; [done|]. intros. rewrite Het. outcome_simpl. by rewrite H.
  - left. exists e. split; [done|]. intros. rewrite Het, Hy. outcome_simpl.
    by rewrite H.
  - destruct (validate_area_Return _ _ Ha) as [Hin _].
    destruct (scan_filter_cases request a Hin) as [(fa & fid & Hscan) | Hscan].
    + destruct (int_arg_cases request "page" 0) as [[p Hp] | Hp].
      * destruct (int_arg_cases request "per_page" 50) as [[pp Hpp] | Hpp].
        -- right. by exists et, y, a, fa, fid, p, pp.
        -- left. eexists. split; [|intros; rewrite Het, Hy, Ha; outcome_simpl;
             rewrite Hscan; outcome_simpl; rewrite Hp; outcome_simpl;
             by rewrite Hpp]. done.
      * left. eexists. split; [|intros; rewrite Het, Hy, Ha; outcome_simpl;
          rewrite Hscan; outcome_simpl; by rewrite Hp]. done.
    + left. eexists. split; [|intros; rewrite Het, Hy, Ha; outcome_simpl;
        by rewrite Hscan]. done.
Qed.

(** X2. No dictionary is read at a key it lacks and [areas.index] never
    misses: whatever the request and the stored rows, [results_by_area]
    ends in neither a [KeyError] nor a [ValueError]. *)
Theorem results_by_area_no_key_error db request event_type year area area_id :
  results_by_area db request event_type year area area_id ≠ Unhandled KeyError
  ∧ results_by_area db request event_type year area area_id ≠ Unhandled ValueError.
Proof.
  assert (∀ f, results_by_area db request event_type year area area_id = Unhandled f →
               f = NegativeLimitOffset) as Hf.
  { intros f.
    destruct (validation_cases request event_type year area)
      as [(e & _ & He) | (et & y & a & fa & fid & p & pp & Het & Hy & Ha & Hscan
                          & Hp & Hpp)].
    { by rewrite He. }
    destruct (validate_area_Return _ _ Ha) as [Hin _].
    destruct (truthy area_id) eqn:Hid.
    - destruct area_id as [[|c r]|]; try done.
      destruct (models_lookup db a Hin) as [model Hmodel].
      rewrite (results_by_area_single db request event_type year area c r
                 et y a fa fid p pp model) by done.
      by destruct (first (filter (has_id (String c r)) model)).
    - rewrite (results_by_area_collection db request event_type year area area_id
                 et y a fa fid p pp) by done.
      destruct (fetch_items_cases db request y a fa fid p pp
                  (truthy (args_get (args request) "all_results")) Hin Hscan)
        as [-> | (matching & _ & ->)]; [done|].
      destruct (truthy (args_get (args request) "all_results")); outcome_simpl.
      + by destruct (decide (order_by matching = [])).
      + unfold limit_offset.
        destruct (decide (pp < 0 ∨ p * pp < 0)); outcome_simpl; [by intros [= <-]|].
        by destruct (decide (take (Z.to_nat pp)
                               (drop (Z.to_nat (p * pp)) (order_by matching)) = [])). }
  split; intros H; by apply Hf in H.
Qed.

(** X3. On the collection route an error is a 422 or a 404. A 422 is
    decided by the request alone: the same error is raised whatever rows are
    stored and whether or not an [area_id] is given. A 404 is raised only
    once the path, the filter and both paging parameters have passed their
    checks. *)
Theorem collection_errors db request event_type year area area_id e :
  truthy area_id = false →
  results_by_area db request event_type year area area_id = Raise e →
  (status_code e = 422
   ∧ ∀ db' area_id',
       results_by_area db' request event_type year area area_id' = Raise e)
  ∨ (status_code e = 404
     ∧ ∃ et y a fa fid p pp,
         validate_event_type event_type = Return et ∧
         validate_year year = Return y ∧
         validate_area area = Return a ∧
         scan_filter request a (reverse areas) = Return (fa, fid) ∧
         int_arg request "page" 0 = Return p ∧
         int_arg request "per_page" 50 = Return pp).
Proof.
  intros Hid H.
  destruct (validation_cases request event_type year area)
    as [(e' & He' & Hall) | (et & y & a & fa & fid & p & pp & Het & Hy & Ha & Hscan
                              & Hp & Hpp)].
  - left. rewrite Hall in H. injection H as <-. by split.
  - right. split; [|by exists et, y, a, fa, fid, p, pp].
    destruct (validate_area_Return _ _ Ha) as [Hin _].
    rewrite (results_by_area_collection db request event_type year area area_id
               et y a fa fid p pp) in H by done.
    destruct (fetch_items_cases db request y a fa fid p pp
                (truthy (args_get (args request) "all_results")) Hin Hscan)
      as [Hf | (matching & _ & Hf)]; rewrite Hf in H; [by injection H as <-|].
    destruct (truthy (args_get (args request) "all_results")); outcome_simpl.
    + destruct (decide (order_by matching = [])); [by injection H as <-|done].
    + unfold limit_offset in H.
      destruct (decide (pp < 0 ∨ p * pp < 0)); outcome_simpl; [done|].
      destruct (decide (take (Z.to_nat pp)
                          (drop (Z.to_nat (p * pp)) (order_by matching)) = []));
        [by injection H as <-|done].
Qed.

(** X4. A non-empty [voting_district] parameter is never a usable filter:
    once the path is valid the request is answered 422, for every area, with
    or without an [area_id], whatever else the query string holds. And the
    province listing takes no filter at all: any non-empty area parameter
    makes it a 422. *)
Theorem unusable_filters db request event_type year area area_id et y a :
  validate_event_type event_type = Return et →
  validate_year year = Return y →
  validate_area area = Return a →
  (truthy (args_get (args request) "voting_district") = true →
   results_by_area db request event_type year area area_id
   = raise 422 "The specified filter parameter cannot be used in this query.")
  ∧ (a = "province" →
     (∃ G, G ∈ areas ∧ truthy (args_get (args request) G) = true) →
     results_by_area db request event_type year area area_id
     = raise 422 "The specified filter parameter cannot be used in this query.").
Proof.
  intros Het Hy Ha. destruct (validate_area_Return _ _ Ha) as [Hin _].
  unfold results_by_area. rewrite Het, Hy, Ha. outcome_simpl.
  rewrite reverse_areas. cbn [scan_filter]. split.
  - intros ->.
    apply areas_cases in Hin as [-> | [-> | [-> | ->]]]; by scan_literal.
  - intros -> (G & HG & Hgiven).
    destruct (truthy (args_get (args request) "voting_district")) eqn:Hvd;
      [by scan_literal|].
    destruct (truthy (args_get (args request) "ward")) eqn:Hw;
      [by scan_literal|].
    destruct (truthy (args_get (args request) "municipality")) eqn:Hm;
      [by scan_literal|].
    destruct (truthy (args_get (args request) "province")) eqn:Hp;
      [by scan_literal|].
    apply areas_cases in HG as [-> | [-> | [-> | ->]]]; congruence.
Qed.

(** X5. The answer to a single-entity request is settled by the event type,
    the area and the identifier: two requests that pass validation get the
    same answer whatever their years, filters and paging parameters are. *)
Theorem single_entity_only_by_id
    db request1 request2 event_type year1 year2 area c r
    et y1 y2 a fa1 fid1 fa2 fid2 p1 pp1 p2 pp2 :
  validate_event_type event_type = Return et →
  validate_area area = Return a →
  validate_year year1 = Return y1 →
  validate_year year2 = Return y2 →
  scan_filter request1 a (reverse areas) = Return (fa1, fid1) →
  scan_filter request2 a (reverse areas) = Return (fa2, fid2) →
  int_arg request1 "page" 0 = Return p1 →
  int_arg request1 "per_page" 50 = Return pp1 →
  int_arg request2 "page" 0 = Return p2 →
  int_arg request2 "per_page" 50 = Return pp2 →
  results_by_area db request1 event_type year1 area (Some (String c r))
  = results_by_area db request2 event_type year2 area (Some (String c r)).
Proof.
  intros Het Ha Hy1 Hy2 Hs1 Hs2 Hp1 Hpp1 Hp2 Hpp2.
  destruct (validate_area_Return _ _ Ha) as [Hin _].
  destruct (models_lookup db a Hin) as [model Hmodel].
  rewrite (results_by_area_single db request1 event_type year1 area c r
             et y1 a fa1 fid1 p1 pp1 model) by done.
  by rewrite (results_by_area_single db request2 event_type year2 area c r
                et y2 a fa2 fid2 p2 pp2 model) by done.
Qed.

(** ** Paging through a collection *)

Lemma concat_pages {A} (l : list A) (m n : nat) :
  concat ((λ k, take m (drop (k * m) l)) <$> seq 0 n) = take (n * m) l.
Proof.
  induction n as [|n IH]; [done|].
  rewrite seq_S, fmap_app, concat_app, IH. cbn [fmap list_fmap concat].
  rewrite app_nil_r, take_take_drop. f_equal. lia.
Qed.

(** X6. Pages partition a collection: for a positive [per_page], the rows
    fetched for pages 0, 1, ..., n-1 (without [all_results]), one after the
    other, are the ordered rows of the collection, each once, as soon as
    [n * per_page] reaches the count; and every page reports the full
    count. *)
Theorem pages_cover_collection db y a fa fid pp matching n :
  selects db y a fa fid matching →
  0 < pp →
  Z.of_nat (length matching) ≤ Z.of_nat n * pp →
  ∃ pages : list (list Row),
    length pages = n ∧
    (∀ k items, pages !! k = Some items →
       fetch_items db y a fa fid (Z.of_nat k) pp false
       = Return (Z.of_nat (length matching), items)) ∧
    concat pages = order_by matching.
Proof.
  intros Hsel Hpp Hn.
  exists ((λ k, take (Z.to_nat pp) (drop (k * Z.to_nat pp) (order_by matching)))
            <$> seq 0 n).
  split; [by rewrite length_fmap, length_seq|]. split.
  - intros k items Hk. rewrite list_lookup_fmap in Hk.
    destruct (seq 0 n !! k) as [k'|] eqn:Hseq; [|done].
    apply lookup_seq in Hseq as [-> _]. injection Hk as <-.
    rewrite (fetch_items_selects db y a fa fid _ pp false matching Hsel).
    unfold limit_offset.
    destruct (decide (pp < 0 ∨ Z.of_nat k * pp < 0)) as [?|_]; [lia|].
    outcome_simpl. by rewrite Z2Nat.inj_mul, Nat2Z.id by lia.
  - rewrite concat_pages. apply take_ge. rewrite order_by_length. lia.
Qed.

(** ** Order of a listing *)

Lemma ident_le_antisym a b : ident_le a b → ident_le b a → a = b.
Proof.
  destruct a as [x|x], b as [z|z]; simpl; try done.
  - intros H1 H2. f_equal. by apply (anti_symm String.le).
  - intros H1 H2. f_equal. lia.
Qed.

(** Sorting the rows of one year gives the same list for every storage
    order of a table with a unique key. *)
Lemma order_by_storage_order y (t t' : list Row) :
  t ≡ₚ t' → unique_key t →
  order_by (filter (in_year y) t) = order_by (filter (in_year y) t').
Proof.
  intros Hperm Huniq.
  apply (StronglySorted_unique_strong row_le); try apply order_by_sorted.
  - intros x1 x2 Hx1 Hx2 H12 H21.
    rewrite order_by_perm in Hx1, Hx2.
    apply list_elem_of_filter in Hx1 as [Hy1 Hx1].
    apply list_elem_of_filter in Hx2 as [Hy2 Hx2].
    rewrite <- Hperm in Hx2.
    apply Huniq; try done.
    + unfold in_year in *. congruence.
    + by apply ident_le_antisym.
  - by rewrite !order_by_perm, Hperm.
Qed.

(** X7. With the unique index on (year, identifier) in force, an unfiltered
    listing does not depend on the order in which the rows are stored: two
    stores whose area tables hold the same rows answer every collection
    request (one without area identifier in the path) that carries no
    filter parameter alike. Requests for a single entity are not covered:
    they take the first stored row with the identifier, whatever its year
    (see [single_entity_storage_order]). *)
Theorem listing_ignores_storage_order db db' request event_type year area area_id :
  provinces db ≡ₚ provinces db' →
  municipalities db ≡ₚ municipalities db' →
  wards db ≡ₚ wards db' →
  voting_districts db ≡ₚ voting_districts db' →
  unique_key (provinces db) →
  unique_key (municipalities db) →
  unique_key (wards db) →
  unique_key (voting_districts db) →
  (∀ G, G ∈ areas → truthy (args_get (args request) G) = false) →
  truthy area_id = false →
  results_by_area db request event_type year area area_id
  = results_by_area db' request event_type year area area_id.
Proof.
  intros Hp Hm Hw Hv Up Um Uw Uv Hnone Hid.
  destruct (validation_cases request event_type year area)
    as [(e & _ & He) | (et & y & a & fa & fid & p & pp & Het & Hy & Ha & Hscan
                        & Hpg & Hpp)].
  { by rewrite !He. }
  rewrite !(results_by_area_collection _ request event_type year area area_id
              et y a fa fid p pp) by done.
  rewrite (scan_filter_none _ _ Hnone) in Hscan. injection Hscan as <- <-.
  destruct (validate_area_Return _ _ Ha) as [Hin _].
  assert (∀ t t' : list Row, t ≡ₚ t' → unique_key t →
    models db !! a = Some t → models db' !! a = Some t' →
    fetch_items db y a None None p pp (truthy (args_get (args request) "all_results"))
    = fetch_items db' y a None None p pp
        (truthy (args_get (args request) "all_results"))) as Hsame.
  { intros t t' Hperm Huniq Ht Ht'. unfold fetch_items.
    rewrite (getitem_Some _ _ _ Ht), (getitem_Some _ _ _ Ht'). outcome_simpl.
    rewrite (order_by_storage_order y t t' Hperm Huniq).
    assert (count (filter (in_year y) t) = count (filter (in_year y) t')) as ->
      by (unfold count; by rewrite Hperm).
    done. }
  f_equal.
  apply areas_cases in Hin as [-> | [-> | [-> | ->]]].
  - by apply (Hsame (provinces db) (provinces db')).
  - by apply (Hsame (municipalities db) (municipalities db')).
  - by apply (Hsame (wards db) (wards db')).
  - by apply (Hsame (voting_districts db) (voting_districts db')).
Qed.

(** ** The index views and the links between the views *)

(** X8. The landing page lists exactly the event types; each link is the
    address of that event type's index, and [index_years] accepts the
    event type it names. *)
Theorem index_event_types_links request :
  (∀ k, is_Some (index_event_types request !! k) ↔ k ∈ event_types)
  ∧ (∀ k link,
       index_event_types request !! k = Some link →
       link = route_url request [k]
       ∧ ∃ out, index_years request k = Return out).
Proof.
  unfold index_event_types, event_types. cbn [foldl]. split.
  - intros k. rewrite !elem_of_cons, elem_of_nil.
    rewrite !lookup_insert, lookup_empty.
    repeat case_decide; subst; split; intros Hk;
      try (by eexists); try tauto; try (by destruct Hk);
      exfalso; intuition congruence.
  - intros k link. rewrite !lookup_insert, lookup_empty.
    repeat case_decide; subst; intros [= <-]; (split; [done|by eexists]).
Qed.

(** X9. For a valid event type the index of years lists exactly the
    supported years; each link is the address of that year's overview, its
    path segments pass the overview's validators, and the overview is
    returned whenever the country row of the year is stored. An invalid
    event type is answered 422. *)
Theorem index_years_links request event_type :
  (∀ out,
     index_years request event_type = Return out →
     ∃ et,
       validate_event_type event_type = Return et ∧
       (∀ y, is_Some (out !! y) ↔ y ∈ years) ∧
       ∀ y link,
         out !! y = Some link →
         link = route_url request [et; py_str y] ∧
         validate_event_type et = Return et ∧
         validate_year (py_str y) = Return y ∧
         ∀ db,
           (∃ c, c ∈ country db ∧ country_year c = y) →
           ∃ overview, results_overall db request et (py_str y) = Return overview)
  ∧ ((lower event_type ∉ event_types) →
     index_years request event_type
     = raise 422
         "Incorrect event_type specified. Please use one of: provincial, national.").
Proof.
  split.
  - unfold index_years. intros out H. bind_inv H. injection H as <-.
    exists a. split; [done|].
    destruct (validate_event_type_Return _ _ Ha) as [Hin _].
    unfold years. cbn [foldl]. split.
    + intros y. rewrite !elem_of_cons, elem_of_nil.
      rewrite !lookup_insert, lookup_empty.
      repeat case_decide; subst; split; intros Hk;
        try (by eexists); try tauto; try lia; try (by destruct Hk);
        exfalso; intuition congruence.
    + intros y link Hlink.
      assert (y ∈ [1999; 2004; 2009]
              ∧ link = url_root request +:+ a +:+ "/" +:+ py_str y +:+ "/")
        as [Hy ->].
      { revert Hlink. rewrite !lookup_insert, lookup_empty.
        rewrite !elem_of_cons.
        repeat case_decide; subst; intros [= <-]; split; auto. }
      split; [done|]. split; [by apply validate_event_type_valid|].
      split; [by apply validate_year_valid|].
      intros db (c & Hc & Hcy). unfold results_overall.
      rewrite validate_event_type_valid, validate_year_valid by done.
      outcome_simpl.
      destruct (first_filter_Some (λ c, country_year c = y) (country db) c Hc Hcy)
        as [z ->].
      outcome_simpl. by eexists.
  - intros Hnot. unfold index_years, validate_event_type.
    by rewrite decide_False.
Qed.

(** The listing a link of the overview addresses: the area of a year, no
    query string. *)
Lemma plain_listing db root et y a model :
  et ∈ event_types → y ∈ years → a ∈ areas →
  models db !! a = Some model →
  results_by_area db (mkRequest root []) et (py_str y) a None =
    let rows := order_by (filter (in_year y) model) in
    let total := count (filter (in_year y) model) in
    if decide (take 50 rows = []) then raise 404 "Not Found"
    else Return (Collection (mkEnvelope total
           (if decide ((0 + 1) * 50 < total)
            then Some (next_url (mkRequest root []) et y a 0) else None)
           (record_of et <$> take 50 rows))).
Proof.
  intros Het Hy Ha Hmodel.
  assert (∀ G, G ∈ areas → truthy (args_get (args (mkRequest root [])) G) = false)
    as Hnone by done.
  rewrite (results_by_area_collection db (mkRequest root []) et (py_str y) a None
             et y a None None 0 50
             (validate_event_type_valid _ Het) (validate_year_valid _ Hy)
             (validate_area_valid _ Ha) (scan_filter_none _ _ Hnone)
             eq_refl eq_refl eq_refl).
  unfold fetch_items. rewrite (getitem_Some _ _ _ Hmodel). outcome_simpl.
  cbn [args args_get truthy]. unfold limit_offset.
  destruct (decide (50 < 0 ∨ 0 * 50 < 0)) as [?|_]; [lia|]. by outcome_simpl.
Qed.

(** X10. The year overview holds nothing but the results and area links.
    Each area link is the address of that area's listing for the validated
    event type and year; the listing it addresses is never refused with 422:
    it returns the first page, with the count of the year's rows, when the
    area has rows in that year, and answers 404 when it has none. *)
Theorem overview_links_lead_to_listings db request event_type year out :
  results_overall db request event_type year = Return out →
  ∃ et y,
    validate_event_type event_type = Return et ∧
    validate_year year = Return y ∧
    (∀ k, is_Some (out !! k) → k = "results" ∨ k ∈ areas) ∧
    ∀ a link,
      a ∈ areas → out !! a = Some link →
      link = route_url request [et; py_str y; a]
      ∧ ∃ model,
          models db !! a = Some model ∧
          (filter (in_year y) model = [] →
           results_by_area db (mkRequest (url_root request) []) et (py_str y) a None
           = raise 404 "Not Found") ∧
          (filter (in_year y) model ≠ [] →
           ∃ env,
             results_by_area db (mkRequest (url_root request) []) et (py_str y) a None
             = Return (Collection env)
             ∧ env_count env = count (filter (in_year y) model)
             ∧ env_results env ≠ []).
Proof.
  intros H. unfold results_overall in H.
  bind_inv H. rename a into et. bind_inv H. rename a into y. bind_inv H.
  injection H as <-. exists et, y. split; [done|]. split; [done|].
  destruct (validate_event_type_Return _ _ Ha) as [Het _].
  destruct (validate_year_Return _ _ Ha0) as [Hy _].
  unfold areas at 1 2. cbn [foldl]. split.
  - intros k. unfold areas. rewrite !elem_of_cons, elem_of_nil.
    repeat case_decide; rewrite !lookup_insert, lookup_empty;
      repeat case_decide; subst; intros Hk; try tauto; by destruct Hk.
  - intros a' link Hin Hlink.
    assert (link = url_root request +:+ et +:+ "/" +:+ py_str y +:+ "/" +:+ a' +:+ "/")
      as ->.
    { revert Hlink.
      apply areas_cases in Hin as [-> | [-> | [-> | ->]]];
        repeat case_decide;
        repeat first [rewrite lookup_insert_eq
                     | rewrite lookup_insert_ne by discriminate
                     | rewrite lookup_empty];
        by intros [= <-]. }
    split; [done|].
    destruct (models_lookup db a' Hin) as [model Hmodel]. exists model.
    split; [done|].
    rewrite (plain_listing db (url_root request) et y a' model Het Hy Hin Hmodel).
    cbv zeta. split.
    + intros Hnil.
      assert (order_by (filter (in_year y) model) = []) as ->.
      { apply length_zero_iff_nil. by rewrite order_by_length, Hnil. }
      done.
    + intros Hne.
      assert (take 50 (order_by (filter (in_year y) model)) ≠ []) as Htake.
      { intros Hnil%(f_equal length). rewrite length_take, order_by_length in Hnil.
        cbn [length] in Hnil. destruct (filter (in_year y) model); [done|].
        cbn [length] in Hnil. lia. }
      destruct (decide (take 50 (order_by (filter (in_year y) model)) = []));
        [done|].
      eexists. split; [done|]. cbn [env_count env_results]. split; [done|].
      by intros ?%fmap_nil_inv.
Qed.

(** ** Headers *)

Lemma headers_get_remove h key key' :
  ¬ same_header key key' →
  headers_get (headers_remove h key) key' = headers_get h key'.
Proof.
  intros Hne. induction h as [|[k v] r IH]; [done|].
  unfold headers_remove in *. rewrite filter_cons. cbn [fst headers_get].
  destruct (decide (¬ same_header k key)) as [Hk|Hk].
  - cbn [headers_get]. by rewrite IH.
  - rewrite IH. apply dec_stable in Hk.
    rewrite decide_False; [done|]. unfold same_header in *. congruence.
Qed.

(** Reading a header after it was set, and any other one. *)
Lemma headers_get_set h key value key' :
  headers_get (headers_set h key value) key'
  = if decide (same_header key key') then Some value else headers_get h key'.
Proof.
  induction h as [|[k v] r IH]; [done|]. cbn [headers_set].
  destruct (decide (same_header k key)) as [Hk|Hk]; cbn [headers_get].
  - destruct (decide (same_header key key')) as [Hk'|Hk'].
    + done.
    + rewrite headers_get_remove by done.
      rewrite decide_False; [done|]. unfold same_header in *. congruence.
  - rewrite IH. destruct (decide (same_header k key')) as [Hk'|Hk']; [|done].
    rewrite decide_False; [done|]. unfold same_header in *. congruence.
Qed.

(** ** The [crossdomain] decorator *)

(** X11. When the decorated view returns and the headers are to be attached
    (the request is not an automatic OPTIONS, and [attach_to_all] holds),
    the response keeps its status and body, carries the allow-origin,
    allow-methods and max-age headers (and allow-headers when configured),
    and every other header reads as before. The methods are those given to
    the decorator, else the [Allow] header of the default OPTIONS response;
    when neither exists the wrapped view fails with a [KeyError] although
    the view returned. *)
Theorem crossdomain_adds_headers {A} c method (options_resp resp : Response A) :
  (automatic_options c = false ∨ method ≠ "OPTIONS") →
  attach_to_all c = true →
  (∀ methods,
     get_methods c options_resp = Return methods →
     ∃ resp',
       wrapped_function c method options_resp (Return resp) = Return resp' ∧
       resp_status resp' = resp_status resp ∧
       resp_body resp' = resp_body resp ∧
       headers_get (resp_headers resp') "Access-Control-Allow-Origin"
         = Some (cors_origin c) ∧
       headers_get (resp_headers resp') "Access-Control-Allow-Methods"
         = Some methods ∧
       headers_get (resp_headers resp') "Access-Control-Max-Age"
         = Some (cors_max_age c) ∧
       headers_get (resp_headers resp') "Access-Control-Allow-Headers"
         = match cors_headers c with
           | Some headers => Some headers
           | None => headers_get (resp_headers resp) "Access-Control-Allow-Headers"
           end ∧
       ∀ key,
         ¬ same_header "Access-Control-Allow-Origin" key →
         ¬ same_header "Access-Control-Allow-Methods" key →
         ¬ same_header "Access-Control-Max-Age" key →
         ¬ same_header "Access-Control-Allow-Headers" key →
         headers_get (resp_headers resp') key = headers_get (resp_headers resp) key)
  ∧ (cors_methods c = None →
     headers_get (resp_headers options_resp) "allow" = None →
     wrapped_function c method options_resp (Return resp) = Unhandled KeyError).
Proof.
  intros Hview Hattach.
  assert (automatic_options c && bool_decide (method = "OPTIONS") = false) as Hauto.
  { destruct Hview as [-> | Hm]; [done|].
    rewrite (bool_decide_eq_false_2 _ Hm). apply andb_false_r. }
  unfold wrapped_function. rewrite Hauto, Hattach. outcome_simpl. cbn [negb andb].
  split.
  - intros methods ->. outcome_simpl. eexists. split; [done|].
    cbn [resp_status resp_body resp_headers]. split; [done|]. split; [done|].
    destruct (cors_headers c) as [hs|];
      repeat split;
      try (intros key H1 H2 H3 H4);
      rewrite ?headers_get_set;
      repeat (rewrite decide_False by (done || (unfold same_header; by vm_compute)));
      rewrite ?decide_True by done; done.
  - intros Hnone Hallow. unfold get_methods. by rewrite Hnone, Hallow.
Qed.

(** X12. What the decorator leaves alone: an exception of the view passes
    through it unchanged (on anything but an automatic OPTIONS), so no
    header is attached to an error; with [attach_to_all] off, the response
    to anything but OPTIONS is returned as the view built it; and on an
    automatic OPTIONS the view plays no part, the answer being the default
    OPTIONS response with the headers attached. *)
Theorem crossdomain_passes_through {A} c method (options_resp : Response A) :
  ((automatic_options c = false ∨ method ≠ "OPTIONS") →
   ∀ e, wrapped_function c method options_resp (Raise e) = Raise e)
  ∧ (attach_to_all c = false → method ≠ "OPTIONS" →
     ∀ resp, wrapped_function c method options_resp (Return resp) = Return resp)
  ∧ (automatic_options c = true →
     ∀ f, wrapped_function c "OPTIONS" options_resp f
          = wrapped_function c "OPTIONS" options_resp (Return options_resp)).
Proof.
  unfold wrapped_function. split; [|split].
  - intros Hview e.
    assert (automatic_options c && bool_decide (method = "OPTIONS") = false) as ->;
      [|done].
    destruct Hview as [-> | Hm]; [done|].
    rewrite (bool_decide_eq_false_2 _ Hm). apply andb_false_r.
  - intros Hattach Hm resp.
    rewrite Hattach, (bool_decide_eq_false_2 _ Hm), andb_false_r.
    by outcome_simpl.
  - intros Hauto f. by rewrite Hauto.
Qed.

(** X13. [crossdomain] cannot be built without an origin (the default
    argument): joining [None] is a [TypeError]. With an origin it is built,
    a list of origins being joined by ", "; the methods it will announce are
    the given ones in upper case, in ascending order; and the decorator of
    the views, [crossdomain(origin='*')], announces origin "*", max-age
    "21600", and no methods or headers of its own. *)
Theorem crossdomain_built origin methods headers max_age attach automatic :
  (crossdomain origin methods headers max_age attach automatic = None ↔ origin = None)
  ∧ (∀ c,
       crossdomain origin methods headers max_age attach automatic = Some c →
       (∀ s, origin = Some (Str s) → cors_origin c = s) ∧
       (∀ l, origin = Some (StrList l) → cors_origin c = join ", " l) ∧
       (methods = None → cors_methods c = None) ∧
       (∀ l, methods = Some l →
          ∃ l', cors_methods c = Some (join ", " l')
                ∧ l' ≡ₚ upper <$> l ∧ StronglySorted String.le l') ∧
       attach_to_all c = attach ∧ automatic_options c = automatic)
  ∧ crossdomain (Some (Str "*")) None None (Seconds 21600) true true = Some api_cors.
Proof.
  split; [|split; [|done]].
  - unfold crossdomain. destruct origin as [[s|l]|]; by cbn.
  - intros c Hc. unfold crossdomain in Hc.
    destruct origin as [[s|l]|]; cbn in Hc; try done; injection Hc as <-;
      cbn [cors_origin cors_methods attach_to_all automatic_options];
      (repeat split; try done; try (by intros ? [= <-]); try (by intros ->);
       intros l0 ->; exists (sorted (upper <$> l0));
       (split; [done|]); split;
       [apply merge_sort_Permutation|apply StronglySorted_merge_sort; apply _]).
Qed.

(** X14. The views as served (anything but OPTIONS). When the view returns,
    the response has status 200, the view's output as its body, the JSON
    content type, origin "*", max-age "21600" and the default OPTIONS
    response's [Allow] as allowed methods. When the view raises an
    [ApiException], the response has the exception's status code, a body
    whose [code] is that same number and whose [message] is the exception's,
    the JSON content type, and no allow-origin header. *)
Theorem served_responses {A} method
    (options_resp : Response (A + gmap string Scalar)) (view : Outcome A) :
  method ≠ "OPTIONS" →
  (∀ out allow,
     view = Return out →
     headers_get (resp_headers options_resp) "allow" = Some allow →
     ∃ resp,
       served method options_resp view = Return resp ∧
       resp_status resp = 200 ∧
       resp_body resp = inl out ∧
       headers_get (resp_headers resp) "content-type" = Some "application/json" ∧
       headers_get (resp_headers resp) "Access-Control-Allow-Origin" = Some "*" ∧
       headers_get (resp_headers resp) "Access-Control-Max-Age" = Some "21600" ∧
       headers_get (resp_headers resp) "Access-Control-Allow-Methods" = Some allow)
  ∧ (∀ e,
       view = Raise e →
       ∃ resp body,
         served method options_resp view = Return resp ∧
         resp_status resp = status_code e ∧
         resp_body resp = inr body ∧
         body !! "code" = Some (SInt (status_code e)) ∧
         body !! "message" = Some (SStr (message e)) ∧
         headers_get (resp_headers resp) "content-type" = Some "application/json" ∧
         headers_get (resp_headers resp) "Access-Control-Allow-Origin" = None).
Proof.
  intros Hm. unfold served, wrapped_function, get_methods.
  cbn [api_cors automatic_options attach_to_all cors_methods cors_headers
       cors_origin cors_max_age].
  rewrite (bool_decide_eq_false_2 _ Hm). cbn [andb negb]. split.
  - intros out allow -> Hallow. outcome_simpl. rewrite Hallow. outcome_simpl.
    eexists. split; [done|]. cbn [resp_status resp_body resp_headers jsonify].
    by repeat split.
  - intros e ->. outcome_simpl. eexists _, _. split; [done|].
    cbn [resp_status resp_body resp_headers handle_api_exception jsonify].
    by repeat split.
Qed.

(** ** Filtered and unfiltered listings *)

Lemma selects_sublist db y a fa fid matching model :
  selects db y a fa fid matching →
  models db !! a = Some model →
  matching `sublist_of` filter (in_year y) model.
Proof.
  intros Hsel Hmodel.
  destruct Hsel as [fa fid model' _ Hmodel'
                   |fa fid filter_model obj model' rel _ _ _ _ Hmodel' _];
    rewrite Hmodel in Hmodel'; injection Hmodel' as <-; [done|].
  assert (filter (λ r, in_year y r ∧ belongs_to rel obj r) model
          = filter (belongs_to rel obj) (filter (in_year y) model)) as ->.
  { rewrite list_filter_filter. apply list_filter_iff. intros r. tauto. }
  apply sublist_filter.
Qed.

(** X15. A filter only narrows a listing: for the same path, the count of
    a collection response is at most the count of the response to a request
    without filter parameter, and every record of the former appears in the
    latter when that one is taken with [all_results]. *)
Theorem filter_narrows db request1 request2 event_type year area out1 out2 :
  results_by_area db request1 event_type year area None = Return (Collection out1) →
  results_by_area db request2 event_type year area None = Return (Collection out2) →
  (∀ G, G ∈ areas → truthy (args_get (args request2) G) = false) →
  env_count out1 ≤ env_count out2
  ∧ (truthy (args_get (args request2) "all_results") = true →
     ∀ rec, rec ∈ env_results out1 → rec ∈ env_results out2).
Proof.
  intros H1 H2 Hnone.
  apply collection_inv in H1
    as (et & y & a & fa & fid & p & pp & items1 & Het & Hy & Ha & _ & _ & _
        & _ & Hfetch1 & _ & _ & Hres1).
  apply collection_inv in H2
    as (et' & y' & a' & fa' & fid' & p' & pp' & items2 & Het' & Hy' & Ha' & Hscan'
        & _ & _ & _ & Hfetch2 & _ & _ & Hres2).
  rewrite Het in Het'. rewrite Hy in Hy'. rewrite Ha in Ha'. simplify_eq.
  rewrite (scan_filter_none _ _ Hnone) in Hscan'. injection Hscan' as <- <-.
  destruct (validate_area_Return _ _ Ha) as [Hin _].
  destruct (models_lookup db a' Hin) as [model Hmodel].
  apply fetch_items_Return in Hfetch1 as (m1 & Hsel1 & Hcnt1 & Hall1 & Hpaged1).
  apply fetch_items_Return in Hfetch2 as (m2 & Hsel2 & Hcnt2 & Hall2 & _).
  pose proof (selects_sublist _ _ _ _ _ _ _ Hsel1 Hmodel) as Hsub.
  assert (m2 = filter (in_year y') model) as ->.
  { inversion Hsel2 as [? ? model' _ Hmodel' |]; subst.
    rewrite Hmodel in Hmodel'. by injection Hmodel' as <-. }
  split.
  - rewrite Hcnt1, Hcnt2. apply sublist_length in Hsub. lia.
  - intros Hflag rec Hrec. rewrite Hres1 in Hrec. rewrite Hres2, (Hall2 Hflag).
    apply list_elem_of_fmap in Hrec as (r & -> & Hr).
    apply list_elem_of_fmap_2. rewrite order_by_perm.
    apply (elem_of_sublist m1); [|done]. rewrite <- (order_by_perm m1).
    destruct (truthy (args_get (args request1) "all_results")).
    + by rewrite <- (Hall1 eq_refl).
    + destruct (Hpaged1 eq_refl) as (_ & _ & ->).
      eapply elem_of_sublist; [|apply sublist_drop].
      eapply elem_of_sublist; [done|apply sublist_take].
Qed.

(** ** Listings against the rows the specification names *)




(** * The further properties at concrete requests *)

Lemma collection_errors_witness :
  ∃ p pp,
    int_arg (mkRequest host [("per_page", "0")]) "page" 0 = Return p
    ∧ int_arg (mkRequest host [("per_page", "0")]) "per_page" 50 = Return pp.
Proof.
  destruct (collection_errors db_two_provinces (mkRequest host [("per_page", "0")])
              "national" "2009" "province" None (mkApiException 404 "Not Found")
              eq_refl eq_refl)
    as [[H422 _] | (_ & et & y & a & fa & fid & p & pp & _ & _ & _ & _ & Hp & Hpp)].
  - discriminate H422.
  - by exists p, pp.
Defined.

Lemma unusable_filters_witness :
  results_by_area db_two_provinces (mkRequest host [("voting_district", "5")])
    "national" "2009" "ward" (Some "3")
  = raise 422 "The specified filter parameter cannot be used in this query.".
Proof.
  apply (proj1 (unusable_filters db_two_provinces
                  (mkRequest host [("voting_district", "5")])
                  "national" "2009" "ward" (Some "3") "national" 2009 "ward"
                  eq_refl eq_refl eq_refl)).
  reflexivity.
Defined.

Lemma single_entity_only_by_id_witness :
  results_by_area db_two_years (mkRequest host []) "national" "1999" "province"
    (Some "WC")
  = results_by_area db_two_years (mkRequest host [("page", "3")]) "national" "2009"
      "province" (Some "WC").
Proof.
  apply (single_entity_only_by_id db_two_years (mkRequest host [])
           (mkRequest host [("page", "3")]) "national" "1999" "2009" "province"
           "W" "C" "national" 1999 2009 "province" None None None None 0 50 3 50);
    reflexivity.
Defined.

Lemma pages_cover_collection_witness :
  ∃ pages : list (list Row),
    length pages = 2%nat
    ∧ concat pages = order_by (filter (in_year 2009) (provinces db_two_provinces)).
Proof.
  destruct (pages_cover_collection db_two_provinces 2009 "province" None None 1
              (filter (in_year 2009) (provinces db_two_provinces)) 2)
    as (pages & Hlen & _ & Hall).
  - apply selects_year; reflexivity.
  - lia.
  - vm_compute. discriminate.
  - by exists pages.
Defined.

Lemma unique_key_nil : unique_key [].
Proof. intros r1 r2 Hr1. by apply elem_of_nil in Hr1. Qed.

Lemma unique_key_two_provinces : unique_key (provinces db_two_provinces).
Proof.
  intros r1 r2 Hr1 Hr2 _ Hid. unfold db_two_provinces, provinces in *.
  rewrite !elem_of_cons, elem_of_nil in Hr1, Hr2.
  destruct Hr1 as [-> | [-> | []]], Hr2 as [-> | [-> | []]];
    try done; by vm_compute in Hid.
Qed.

Lemma listing_ignores_storage_order_witness :
  results_by_area db_two_provinces (mkRequest host []) "national" "2009" "province"
    None
  = results_by_area db_two_provinces_swapped (mkRequest host []) "national" "2009"
      "province" None.
Proof.
  apply listing_ignores_storage_order;
    try reflexivity; try apply unique_key_nil.
  - apply Permutation_swap.
  - apply unique_key_two_provinces.
Defined.

Lemma unique_key_two_years : unique_key (provinces db_two_years).
Proof.
  intros r1 r2 Hr1 Hr2 Hy _. unfold db_two_years, provinces in *.
  rewrite !elem_of_cons, elem_of_nil in Hr1, Hr2.
  destruct Hr1 as [-> | [-> | []]], Hr2 as [-> | [-> | []]];
    try done; by vm_compute in Hy.
Qed.

(** A request for a single entity does depend on the storage order, the
    unique index notwithstanding: Western Cape of 1999 and of 2009 stored
    one way round or the other, the same request is answered with the one
    row or with the other. *)
Example single_entity_storage_order :
  provinces db_two_years ≡ₚ provinces db_two_years_swapped
  ∧ unique_key (provinces db_two_years)
  ∧ results_by_area db_two_years (mkRequest host []) "national" "2009" "province"
      (Some "WC")
    = Return (Single (record_of "national" (province_row 1 "WC" 1999)))
  ∧ results_by_area db_two_years_swapped (mkRequest host []) "national" "2009"
      "province" (Some "WC")
    = Return (Single (record_of "national" (province_row 2 "WC" 2009))).
Proof.
  split; [apply Permutation_swap|]. split; [apply unique_key_two_years|].
  split; by vm_compute.
Qed.

Lemma index_event_types_links_witness :
  ∃ out, index_years (mkRequest host []) "national" = Return out.
Proof.
  destruct (proj2 (index_event_types_links (mkRequest host []))
              "national" "http://localhost/national/" eq_refl) as [_ Hout].
  exact Hout.
Defined.

Lemma index_years_links_witness :
  ∃ overview,
    results_overall db_country (mkRequest host []) "provincial" (py_str 2009)
    = Return overview.
Proof.
  assert (∃ out, index_years (mkRequest host []) "Provincial" = Return out)
    as [out Hout] by (vm_compute; by eexists).
  destruct (proj1 (index_years_links (mkRequest host []) "Provincial") out Hout)
    as (et & Het & _ & Hlinks).
  vm_compute in Het. injection Het as <-.
  assert (out !! 2009 = Some "http://localhost/provincial/2009/") as Hlink.
  { vm_compute in Hout. injection Hout as <-. reflexivity. }
  destruct (Hlinks 2009 _ Hlink) as (_ & _ & _ & Hoverview).
  apply Hoverview.
  exists (mkCountry 1 2009 "provincial totals" "national totals" true).
  split; [apply list_elem_of_here|reflexivity].
Defined.

Lemma overview_links_lead_to_listings_witness :
  ∃ et y,
    validate_event_type "national" = Return et
    ∧ validate_year "2009" = Return y.
Proof.
  assert (∃ out, results_overall db_2009 (mkRequest host []) "national" "2009"
                 = Return out) as [out Hout]
    by (eexists; reflexivity).
  destruct (overview_links_lead_to_listings db_2009 (mkRequest host []) "national"
              "2009" out Hout)
    as (et & y & Het & Hy & _).
  by exists et, y.
Defined.

Lemma crossdomain_adds_headers_witness :
  ∃ resp',
    wrapped_function api_cors "GET" (mkResponse 200 [("Allow", "GET")] "")
      (Return (jsonify "body")) = Return resp'
    ∧ resp_body resp' = "body"
    ∧ headers_get (resp_headers resp') "Access-Control-Allow-Origin" = Some "*"
    ∧ headers_get (resp_headers resp') "content-type" = Some "application/json".
Proof.
  assert (get_methods api_cors (mkResponse 200 [("Allow", "GET")] "")
          = Return "GET") as Hmethods by (vm_compute; reflexivity).
  assert ("GET" ≠ "OPTIONS") as Hget by discriminate.
  destruct (proj1 (crossdomain_adds_headers api_cors "GET"
                     (mkResponse 200 [("Allow", "GET")] "") (jsonify "body")
                     (or_intror Hget) eq_refl) "GET" Hmethods)
    as (resp' & Hresp & _ & Hbody & Horigin & _ & _ & _ & Hframe).
  exists resp'. split; [exact Hresp|]. split; [exact Hbody|].
  split; [exact Horigin|].
  rewrite Hframe; [reflexivity|by vm_compute..].
Defined.

Lemma crossdomain_passes_through_witness :
  wrapped_function api_cors "GET" (mkResponse 200 [("Allow", "GET")] "")
    (Raise (mkApiException 404 "Not Found"))
  = Raise (mkApiException 404 "Not Found").
Proof.
  apply (proj1 (crossdomain_passes_through api_cors "GET"
                  (mkResponse 200 [("Allow", "GET")] ""))).
  right. discriminate.
Defined.

Lemma crossdomain_built_witness :
  crossdomain None None None (Seconds 21600) true true = None.
Proof.
  by apply (proj1 (crossdomain_built None None None (Seconds 21600) true true)).
Defined.

Lemma served_responses_witness :
  ∃ resp,
    served "GET" options_response
      (results_by_area db_two_provinces (mkRequest host [("per_page", "0")])
         "national" "2009" "province" None) = Return resp
    ∧ resp_status resp = 404
    ∧ headers_get (resp_headers resp) "Access-Control-Allow-Origin" = None.
Proof.
  assert (results_by_area db_two_provinces (mkRequest host [("per_page", "0")])
            "national" "2009" "province" None
          = Raise (mkApiException 404 "Not Found")) as Hview
    by (vm_compute; reflexivity).
  assert ("GET" ≠ "OPTIONS") as Hget by discriminate.
  destruct (proj2 (served_responses "GET" options_response
                     (results_by_area db_two_provinces
                        (mkRequest host [("per_page", "0")])
                        "national" "2009" "province" None) Hget)
              (mkApiException 404 "Not Found") Hview)
    as (resp & body & Hresp & Hstatus & _ & _ & _ & _ & Hnone).
  by exists resp.
Defined.

Lemma filter_narrows_witness :
  ∃ out1 out2,
    results_by_area db_filtered (mkRequest host [("province", "EC")])
      "national" "2009" "municipality" None = Return (Collection out1)
    ∧ results_by_area db_filtered (mkRequest host []) "national" "2009"
        "municipality" None = Return (Collection out2)
    ∧ env_count out1 ≤ env_count out2.
Proof.
  assert (∃ out1,
    results_by_area db_filtered (mkRequest host [("province", "EC")])
      "national" "2009" "municipality" None = Return (Collection out1))
    as [out1 H1] by (vm_compute; by eexists).
  assert (∃ out2,
    results_by_area db_filtered (mkRequest host []) "national" "2009"
      "municipality" None = Return (Collection out2))
    as [out2 H2] by (vm_compute; by eexists).
  exists out1, out2. split; [exact H1|]. split; [exact H2|].
  apply (filter_narrows db_filtered _ _ _ _ _ out1 out2 H1 H2).
  intros G [-> | [-> | [-> | ->]]]%areas_cases; reflexivity.
Defined.

